(** * auth0verification.js: scheme selection, key resolution, route exclusion

    A shallow embedding of [src/lib/auth0verification.js].  JavaScript
    strings are Rocq strings whose characters stand for code units below
    256; a [Buffer] is a list of bytes; promises are settled results
    threaded through an explicit world; Express middleware is a function
    from the request to the ordered list of actions it performs. *)

From Stdlib Require Import Ascii String NArith ZArith Bool Lia.
From stdpp Require Import base option list gmap strings.

Local Open Scope N_scope.

(** ** JavaScript prelude *)

Module Js.

(** An [Error] object, as far as the middleware looks at it. *)
Record Error := mkError { name : string; message : string }.

(** [Error.prototype.toString]. *)
Definition Error_toString (e : Error) : string :=
  if String.eqb (name e) "" then message e
  else if String.eqb (message e) "" then name e
  else name e +:+ ": " +:+ message e.

(** Calling a variable that holds [undefined]. *)
Definition not_a_function (callee : string) : Error :=
  mkError "TypeError" (callee +:+ " is not a function").

(** Reading a property of [undefined]. *)
Definition cannot_read (prop : string) : Error :=
  mkError "TypeError" ("Cannot read property '" +:+ prop +:+ "' of undefined").

(** Reading a property of [null]. *)
Definition cannot_read_null (prop : string) : Error :=
  mkError "TypeError" ("Cannot read property '" +:+ prop +:+ "' of null").

(** Result of a synchronous computation that may throw. *)
Inductive Completion (A : Type) : Type :=
| Normal (a : A)
| Throw (e : Error).
Arguments Normal {A} a.
Arguments Throw {A} e.

(** Values stored in a claim set. *)
Inductive Val : Type :=
| VUndefined
| VNull
| VBool (b : bool)
| VNum (z : Z)
| VStr (s : string).

(** A field that is either [undefined] or a string is an [option string];
    it is truthy when it is a non-empty string. *)
Definition truthy (v : option string) : bool :=
  match v with
  | Some s => negb (String.eqb s "")
  | None => false
  end.

(** [a || b] on such fields. *)
Definition or_else (a b : option string) : option string :=
  if truthy a then a else b.

(** String coercion in [+] and in template literals. *)
Definition to_string (v : option string) : string :=
  match v with
  | Some s => s
  | None => "undefined"
  end.

Definition val_of (v : option string) : Val :=
  match v with
  | Some s => VStr s
  | None => VUndefined
  end.

(** [s.split(sep)] for a one-character separator: never the empty list. *)
Fixpoint split (sep : ascii) (s : string) : list string :=
  match s with
  | EmptyString => [EmptyString]
  | String c rest =>
      if Ascii.eqb c sep then EmptyString :: split sep rest
      else match split sep rest with
           | hd :: tl => String c hd :: tl
           | [] => [String c EmptyString]
           end
  end.

(** [arr[i]]: [undefined] out of range. *)
Definition index (arr : list string) (i : nat) : option string := nth_error arr i.

End Js.

(** ** Buffers: UTF-8 and base64 *)

Module Buffer.

Definition t := list Byte.byte.

Definition byte_of_N (n : N) : Byte.byte := byte_of_ascii (ascii_of_N n).

(** [new Buffer(str)]: the UTF-8 bytes of a string of code units below 256. *)
Definition utf8_unit (c : ascii) : t :=
  let n := N_of_ascii c in
  if n <? 128 then [byte_of_N n]
  else [byte_of_N (N.lor 192 (N.shiftr n 6)); byte_of_N (N.lor 128 (N.land n 63))].

Fixpoint from_string (s : string) : t :=
  match s with
  | EmptyString => []
  | String c rest => utf8_unit c ++ from_string rest
  end.

(** The base64 alphabet of [buf.toString("base64")]. *)
Definition b64_char (i : N) : ascii :=
  if i <? 26 then ascii_of_N (65 + i)
  else if i <? 52 then ascii_of_N (97 + (i - 26))
  else if i <? 62 then ascii_of_N (48 + (i - 52))
  else if i =? 62 then "+"%char
  else "/"%char.

(** The four 6-bit digits of a group of three bytes [x], [y], [z]. *)
Definition sextet1 (x : N) : N := N.shiftr x 2.
Definition sextet2 (x y : N) : N := N.lor (N.shiftl (N.land x 3) 4) (N.shiftr y 4).
Definition sextet3 (y z : N) : N := N.lor (N.shiftl (N.land y 15) 2) (N.shiftr z 6).
Definition sextet4 (z : N) : N := N.land z 63.

(** [buf.toString("base64")]: a short last group is filled with zero bits
    and padded with [=]. *)
Fixpoint to_base64 (bs : t) : string :=
  match bs with
  | [] => EmptyString
  | [a] =>
      let x := Byte.to_N a in
      String (b64_char (sextet1 x)) (String (b64_char (sextet2 x 0)) "==")
  | [a; b] =>
      let x := Byte.to_N a in
      let y := Byte.to_N b in
      String (b64_char (sextet1 x))
        (String (b64_char (sextet2 x y))
           (String (b64_char (sextet3 y 0)) "="))
  | a :: b :: c :: rest =>
      let x := Byte.to_N a in
      let y := Byte.to_N b in
      let z := Byte.to_N c in
      String (b64_char (sextet1 x))
        (String (b64_char (sextet2 x y))
           (String (b64_char (sextet3 y z))
              (String (b64_char (sextet4 z)) (to_base64 rest))))
  end.

(** Value of a base64 digit; the decoder of [new Buffer(str, "base64")]
    also reads the URL-safe digits [-] and [_]. *)
Definition b64_value (c : ascii) : option N :=
  let n := N_of_ascii c in
  if (65 <=? n) && (n <=? 90) then Some (n - 65)
  else if (97 <=? n) && (n <=? 122) then Some (n - 97 + 26)
  else if (48 <=? n) && (n <=? 57) then Some (n - 48 + 52)
  else if (n =? 43) || (n =? 45) then Some 62
  else if (n =? 47) || (n =? 95) then Some 63
  else None.

(** The digits the decoder reads: it skips characters outside the alphabet
    and stops at the first [=]. *)
Fixpoint b64_digits (s : string) : list N :=
  match s with
  | EmptyString => []
  | String c rest =>
      if Ascii.eqb c "="%char then []
      else match b64_value c with
           | Some v => v :: b64_digits rest
           | None => b64_digits rest
           end
  end.

(** The three bytes of a group of four digits [a], [b], [c], [d]. *)
Definition octet1 (a b : N) : N := N.lor (N.shiftl a 2) (N.shiftr b 4).
Definition octet2 (b c : N) : N := N.lor (N.shiftl (N.land b 15) 4) (N.shiftr c 2).
Definition octet3 (c d : N) : N := N.lor (N.shiftl (N.land c 3) 6) d.

Fixpoint b64_groups (ds : list N) : t :=
  match ds with
  | a :: b :: c :: d :: rest =>
      byte_of_N (octet1 a b) :: byte_of_N (octet2 b c) :: byte_of_N (octet3 c d)
        :: b64_groups rest
  | [a; b; c] => [byte_of_N (octet1 a b); byte_of_N (octet2 b c)]
  | [a; b] => [byte_of_N (octet1 a b)]
  | _ => []
  end.

(** [new Buffer(str, "base64")]. *)
Definition from_base64 (s : string) : t := b64_groups (b64_digits s).

(** [P] holds of every number below [n]. *)
Definition below (n : N) (P : N -> bool) : bool :=
  forallb (fun i => P (N.of_nat i)) (seq 0 (N.to_nat n)).

End Buffer.

(** ** Regular expressions

    The pattern language is the fragment of ECMAScript patterns made of
    literal characters, [.], [^], [$], identity escapes, groups, [|] and the
    greedy quantifiers [*], [+] and [?].  A source string outside the
    fragment (classes, braces, lazy quantifiers, letter escapes) is refused
    by [create] like a malformed one. *)

Module RegExp.

Inductive Pattern : Type :=
| Empty
| Char (c : ascii)
| Dot
| AssertStart
| AssertEnd
| Seq (a b : Pattern)
| Alt (a b : Pattern)
| Star (a : Pattern).

(** A RegExp object: compiled pattern, the [i] and [g] flags, [lastIndex]. *)
Record t := mk {
  pattern : Pattern;
  ignoreCase : bool;
  global : bool;
  lastIndex : nat
}.

(** Canonicalize of the [i] flag on code units below 256: [a-z] and the
    Latin-1 lower-case letters map to their upper case. *)
Definition canonicalize (c : ascii) : ascii :=
  let n := N_of_ascii c in
  if (97 <=? n) && (n <=? 122) then ascii_of_N (n - 32)
  else if (224 <=? n) && (n <=? 254) && negb (n =? 247) then ascii_of_N (n - 32)
  else c.

Definition char_match (ic : bool) (c x : ascii) : bool :=
  if ic then Ascii.eqb (canonicalize c) (canonicalize x) else Ascii.eqb c x.

Definition line_terminator (c : ascii) : bool :=
  let n := N_of_ascii c in (n =? 10) || (n =? 13).

(** Backtracking matcher in continuation style: [i] is the index in the
    whole input, [s] what is left of it, the result the end index of the
    first match in priority order.  An iteration of [Star] that consumes
    nothing is abandoned, as in the RepeatMatcher of the standard. *)
Fixpoint run (ic : bool) (r : Pattern) (i : nat) (s : list ascii)
    (k : nat -> list ascii -> option nat) {struct r} : option nat :=
  match r with
  | Empty => k i s
  | Char c =>
      match s with
      | x :: s' => if char_match ic c x then k (S i) s' else None
      | [] => None
      end
  | Dot =>
      match s with
      | x :: s' => if line_terminator x then None else k (S i) s'
      | [] => None
      end
  | AssertStart => if Nat.eqb i 0 then k i s else None
  | AssertEnd => match s with [] => k i s | _ :: _ => None end
  | Seq a b => run ic a i s (fun i' s' => run ic b i' s' k)
  | Alt a b =>
      match run ic a i s k with
      | Some e => Some e
      | None => run ic b i s k
      end
  | Star a =>
      (fix star (n : nat) (i : nat) (s : list ascii) {struct n} : option nat :=
         match n with
         | O => k i s
         | S n' =>
             match run ic a i s
                     (fun i' s' => if Nat.eqb i' i then None else star n' i' s')
             with
             | Some e => Some e
             | None => k i s
             end
         end) (length s) i s
  end.

(** Try the pattern at index [i], then at every later index. *)
Fixpoint search (ic : bool) (r : Pattern) (i : nat) (s : list ascii)
    : option (nat * nat) :=
  match run ic r i s (fun e _ => Some e) with
  | Some e => Some (i, e)
  | None =>
      match s with
      | [] => None
      | _ :: s' => search ic r (S i) s'
      end
  end.

(** [re.exec(str)]: the match (start and end index) or [null], and the
    object afterwards.  Only a global pattern reads and writes
    [lastIndex]. *)
Definition exec (re : t) (str : string) : option (nat * nat) * t :=
  let input := list_ascii_of_string str in
  let start := if global re then lastIndex re else O in
  let rewound := mk (pattern re) (ignoreCase re) (global re) O in
  if Nat.ltb (length input) start then (None, if global re then rewound else re)
  else
    match search (ignoreCase re) (pattern re) start (skipn start input) with
    | Some (b, e) =>
        (Some (b, e),
         if global re then mk (pattern re) (ignoreCase re) true e else re)
    | None => (None, if global re then rewound else re)
    end.

(** *** Parsing a pattern source *)

(** One term of a sequence; [quantifiable] is false for an assertion and
    for a term that already carries a quantifier. *)
Record Term := mkTerm { term : Pattern; quantifiable : bool }.

(** An open group: the finished alternatives and the current sequence,
    both most recent first. *)
Record Frame := mkFrame { alts : list Pattern; terms : list Term }.

Definition seq_of (ts : list Term) : Pattern :=
  fold_left (fun acc t => Seq (term t) acc) ts Empty.

Definition alt_of (f : Frame) : Pattern :=
  fold_left (fun acc a => Alt a acc) (alts f) (seq_of (terms f)).

Definition push (t : Term) (f : Frame) : Frame :=
  mkFrame (alts f) (t :: terms f).

Definition quantify (q : Pattern -> Pattern) (f : Frame) : option Frame :=
  match terms f with
  | mkTerm r true :: ts => Some (mkFrame (alts f) (mkTerm (q r) false :: ts))
  | _ => None
  end.

Definition alnum (c : ascii) : bool :=
  let n := N_of_ascii c in
  ((48 <=? n) && (n <=? 57)) || ((65 <=? n) && (n <=? 90))
  || ((97 <=? n) && (n <=? 122)).

(** Characters with a syntactic role; the class and brace characters are
    outside the fragment. *)
Definition syntax_char (c : ascii) : bool :=
  existsb (Ascii.eqb c)
    ["^"; "$"; "\"; "."; "*"; "+"; "?"; "("; ")"; "["; "]"; "{"; "}"; "|"]%char.

(** Left-to-right parser over a stack of open groups: [cur] is the
    innermost one.  [None] is the SyntaxError of the constructor. *)
Fixpoint parse (src : list ascii) (cur : Frame) (outer : list Frame)
    : option Pattern :=
  match src with
  | [] => match outer with [] => Some (alt_of cur) | _ :: _ => None end
  | c :: rest =>
      if Ascii.eqb c "\"%char then
        match rest with
        | x :: rest' =>
            if alnum x then None
            else parse rest' (push (mkTerm (Char x) true) cur) outer
        | [] => None
        end
      else if Ascii.eqb c "."%char then
        parse rest (push (mkTerm Dot true) cur) outer
      else if Ascii.eqb c "^"%char then
        parse rest (push (mkTerm AssertStart false) cur) outer
      else if Ascii.eqb c "$"%char then
        parse rest (push (mkTerm AssertEnd false) cur) outer
      else if Ascii.eqb c "*"%char then
        match quantify Star cur with
        | Some f => parse rest f outer
        | None => None
        end
      else if Ascii.eqb c "+"%char then
        match quantify (fun r => Seq r (Star r)) cur with
        | Some f => parse rest f outer
        | None => None
        end
      else if Ascii.eqb c "?"%char then
        match quantify (fun r => Alt r Empty) cur with
        | Some f => parse rest f outer
        | None => None
        end
      else if Ascii.eqb c "|"%char then
        parse rest (mkFrame (seq_of (terms cur) :: alts cur) []) outer
      else if Ascii.eqb c "("%char then
        match rest with
        | "?"%char :: _ => None
        | _ => parse rest (mkFrame [] []) (cur :: outer)
        end
      else if Ascii.eqb c ")"%char then
        match outer with
        | f :: outer' => parse rest (push (mkTerm (alt_of cur) true) f) outer'
        | [] => None
        end
      else if syntax_char c then None
      else parse rest (push (mkTerm (Char c) true) cur) outer
  end.

(** The flags string: [i] and [g], each at most once. *)
Fixpoint parse_flags (fl : list ascii) (ic g : bool) : option (bool * bool) :=
  match fl with
  | [] => Some (ic, g)
  | c :: rest =>
      if Ascii.eqb c "i"%char then
        if ic then None else parse_flags rest true g
      else if Ascii.eqb c "g"%char then
        if g then None else parse_flags rest ic true
      else None
  end.

(** [new RegExp(source, flags)]. *)
Definition create (source flags : string) : option t :=
  match parse (list_ascii_of_string source) (mkFrame [] []) [],
        parse_flags (list_ascii_of_string flags) false false with
  | Some p, Some (ic, g) => Some (mk p ic g O)
  | _, _ => None
  end.

End RegExp.

(** ** Route exclusion *)

Module Routes.

(** The [url] of a [{url, method}] entry: a string or a RegExp object. *)
Inductive Url : Type :=
| UrlString (s : string)
| UrlRegExp (re : RegExp.t).

(** One entry of [config.excludedRoutes].  Objects carry a reference [ref]
    because lodash compares them by identity. *)
Inductive RouteSpec : Type :=
| SString (s : string)
| SRegExp (ref : nat) (re : RegExp.t)
| SPair (ref : nat) (url : option Url) (method : string)
| SNull.

(** One entry of the compiled list handed to the matcher. *)
Inductive Route : Type :=
| RRegExp (re : RegExp.t)
| RPair (url : RegExp.t) (method : string)
| ROther.

(** SameValueZero, the equality of [_.union]. *)
Definition same_value (a b : RouteSpec) : bool :=
  match a, b with
  | SString s, SString s' => String.eqb s s'
  | SRegExp r _, SRegExp r' _ => Nat.eqb r r'
  | SPair r _ _, SPair r' _ _ => Nat.eqb r r'
  | SNull, SNull => true
  | _, _ => false
  end.

Fixpoint uniq (seen l : list RouteSpec) : list RouteSpec :=
  match l with
  | [] => []
  | x :: l' =>
      if existsb (same_value x) seen then uniq seen l'
      else x :: uniq (x :: seen) l'
  end.

(** [_.union(a, b)]: first occurrences, in order. *)
Definition union (a b : list RouteSpec) : list RouteSpec := uniq [] (a ++ b).

Definition defaultExcludedRoutes : list RouteSpec :=
  [SString "/livecheck"; SString "/swagger";
   SString "/authtools/widget.js"; SString "/authtools/connections.js"].

(** The SyntaxError of the RegExp constructor.  Its name is the engine's;
    of its message only the beginning is modelled, the reason that the
    engine appends after the source is left out. *)
Definition syntax_error (source : string) : Js.Error :=
  Js.mkError "SyntaxError" ("Invalid regular expression: /" +:+ source +:+ "/").

Definition new_RegExp (source flags : string) : Js.Completion RegExp.t :=
  match RegExp.create source flags with
  | Some re => Js.Normal re
  | None => Js.Throw (syntax_error source)
  end.

(** The callback of [_.map] in [getExcludedRoutes]. *)
Definition compile_route (route : RouteSpec) : Js.Completion Route :=
  match route with
  | SString s =>
      match new_RegExp s "i" with
      | Js.Normal re => Js.Normal (RRegExp re)
      | Js.Throw e => Js.Throw e
      end
  | SNull => Js.Throw (Js.cannot_read_null "url")
  | SPair _ (Some (UrlRegExp re)) m => Js.Normal (RPair re m)
  | SPair _ (Some (UrlString s)) m =>
      if String.eqb s "" then Js.Normal ROther
      else match new_RegExp s "i" with
           | Js.Normal re => Js.Normal (RPair re m)
           | Js.Throw e => Js.Throw e
           end
  | SPair _ None _ => Js.Normal ROther
  | SRegExp _ re => Js.Normal (RRegExp re)
  end.

Fixpoint map_routes (l : list RouteSpec) : Js.Completion (list Route) :=
  match l with
  | [] => Js.Normal []
  | x :: l' =>
      match compile_route x with
      | Js.Throw e => Js.Throw e
      | Js.Normal r =>
          match map_routes l' with
          | Js.Throw e => Js.Throw e
          | Js.Normal rs => Js.Normal (r :: rs)
          end
      end
  end.

Definition getExcludedRoutes (configuredExclusions : option (list RouteSpec))
    : Js.Completion (list Route) :=
  let routesToExclude :=
    union defaultExcludedRoutes (default [] configuredExclusions) in
  match map_routes routesToExclude with
  | Js.Throw e => Js.Throw e
  | Js.Normal excludedRoutesRegex =>
      match new_RegExp "^/$" "ig" with
      | Js.Throw e => Js.Throw e
      | Js.Normal root => Js.Normal (excludedRoutesRegex ++ [RRegExp root])
      end
  end.

(** Modelled from the spec: the matcher that [jwtAuthentication.unless]
    installs comes from the express-unless package, which is not among the
    sources.  Section 3 makes a pattern immutable once compiled, so the
    matcher leaves every pattern it has tried at [lastIndex = 0]. *)
Definition rewind (re : RegExp.t) : RegExp.t :=
  RegExp.mk (RegExp.pattern re) (RegExp.ignoreCase re) (RegExp.global re) O.

(** Modelled from the spec: one pattern over the path (section 4.1, "match
    against the path"): the pattern is run with [exec] and rewound. *)
Definition isUrlMatch (re : RegExp.t) (path : string) : bool * RegExp.t :=
  let '(m, re') := RegExp.exec re path in (bool_decide (is_Some m), rewind re').

(** Modelled from the spec: section 4.1, a plain pattern is matched against
    the path alone; for a [{method, url}] pattern the request's method must
    equal the pattern's method and the path must match the pattern's
    regex. *)
Definition route_match (r : Route) (method path : string) : bool * Route :=
  match r with
  | RRegExp re =>
      let '(b, re') := isUrlMatch re path in (b, RRegExp re')
  | RPair re m =>
      let '(b, re') := isUrlMatch re path in (b && String.eqb m method, RPair re' m)
  | ROther => (false, ROther)
  end.

(** Modelled from the spec: section 4.1, a request is excluded if any
    compiled pattern matches.  Patterns are tried in order up to the first
    that matches; the second component is the pattern list afterwards. *)
Fixpoint isExcluded (routes : list Route) (method path : string)
    : bool * list Route :=
  match routes with
  | [] => (false, [])
  | r :: rs =>
      let '(b, r') := route_match r method path in
      if b then (true, r' :: rs)
      else let '(b', rs') := isExcluded rs method path in (b', r' :: rs')
  end.

(** A run of requests against one pattern list, in order. *)
Fixpoint isExcluded_all (routes : list Route) (reqs : list (string * string))
    : list bool :=
  match reqs with
  | [] => []
  | (method, path) :: reqs' =>
      let '(b, routes') := isExcluded routes method path in
      b :: isExcluded_all routes' reqs'
  end.

End Routes.

(** ** Promises over an explicit world *)

Module Promise.

Inductive Settled (A : Type) : Type :=
| Fulfilled (a : A)
| Rejected (e : Js.Error).
Arguments Fulfilled {A} a.
Arguments Rejected {A} e.

(** The cache collaborator: [get(key)] and [set(key, value, ttlSeconds)],
    both of which may reject. *)
Class Cache (C : Type) := {
  cache_get : string -> C -> Settled (option string);
  cache_set : string -> string -> Z -> C -> Settled unit * C
}.

(** Calls that leave the process, in the order they are made. *)
Inductive Io : Type :=
| IoCacheGet (key : string)
| IoCacheSet (key value : string) (ttl : Z)
| IoJwksClient (cache : bool) (cacheMaxEntries : Z) (jwksUri : string)
| IoGetSigningKey (jwksUri kid : string).

Record World (C : Type) := mkWorld { store : C; io : list Io }.
Arguments mkWorld {C} store io.
Arguments store {C} w.
Arguments io {C} w.

(** A promise-returning computation. *)
Definition P (C A : Type) : Type := World C -> Settled A * World C.

Definition resolve {C A} (a : A) : P C A := fun w => (Fulfilled a, w).
Definition reject {C A} (e : Js.Error) : P C A := fun w => (Rejected e, w).

(** [p.then(f)]. *)
Definition then_ {C A B} (p : P C A) (f : A -> P C B) : P C B :=
  fun w =>
    match p w with
    | (Fulfilled a, w') => f a w'
    | (Rejected e, w') => (Rejected e, w')
    end.

(** [p.then(f, g)]: [g] sees the rejections of [p], not those of [f]. *)
Definition then2 {C A B} (p : P C A) (f : A -> P C B) (g : Js.Error -> P C B)
    : P C B :=
  fun w =>
    match p w with
    | (Fulfilled a, w') => f a w'
    | (Rejected e, w') => g e w'
    end.

Definition log {C} (ev : Io) : P C unit :=
  fun w => (Fulfilled tt, mkWorld (store w) (io w ++ [ev])).

End Promise.

Notation "'await' x '<-' p ';' k" := (Promise.then_ p (fun x => k))
  (at level 10, x name, p at level 100, k at level 200, only parsing).

(** ** The module: key resolution, verifiers, scheme selection *)

Module Auth0.

Import Promise.

Definition ERROR_NAME : string := "UnauthorizedError".

(** The class [[A-Za-z0-9-_]] of [BASE64_REGEX]. *)
Definition base64url_char (c : ascii) : bool :=
  RegExp.alnum c || Ascii.eqb c "-"%char || Ascii.eqb c "_"%char.

(** [BASE64_REGEX]: groups of four class characters, then at most one
    group of two followed by [==] or of three followed by [=]. *)
Fixpoint BASE64_REGEX_chars (s : list ascii) : bool :=
  match s with
  | [] => true
  | a :: b :: c :: d :: rest =>
      if base64url_char a && base64url_char b && base64url_char c
         && base64url_char d
      then BASE64_REGEX_chars rest
      else
        match rest with
        | [] =>
            base64url_char a && base64url_char b && Ascii.eqb d "="%char
            && (base64url_char c || Ascii.eqb c "="%char)
        | _ :: _ => false
        end
  | _ => false
  end.

Definition BASE64_REGEX (s : string) : bool :=
  BASE64_REGEX_chars (list_ascii_of_string s).

(** The configuration object. *)
Record Config := mkConfig {
  secret : option string;
  enableV1 : option bool;
  clientId : option string;
  audience : option string;
  domain : option string;
  jwksUrl : option string;
  excludedRoutes : option (list Routes.RouteSpec)
}.

(** A signing key as the key-set client describes it. *)
Record SigningKey := mkSigningKey {
  publicKey : option string;
  rsaPublicKey : option string
}.

(** What [getAuthPublicKey] resolves with: a Buffer, or the error object
    that the handler [err => err] returns. *)
Inductive KeyValue : Type :=
| KBuffer (b : Buffer.t)
| KError (e : Js.Error).

(** Both are objects. *)
Definition key_truthy (k : KeyValue) : bool :=
  match k with
  | KBuffer _ => true
  | KError _ => true
  end.

(** The header of a decoded token. *)
Record Header := mkHeader { alg : option string; kid : option string }.

(** [jwt.decode(token, {complete: true})]: throws, or returns [null] or the
    decoded token. *)
Record Decoded := mkDecoded { header : option Header }.

Inductive DecodeOutcome : Type :=
| DecodeThrows (err : Js.Error)
| DecodeReturns (d : option Decoded).

(** The call of [done] made by the secret callback. *)
Inductive Done : Type :=
| DoneError (err : Js.Error)
| DoneKey (key : KeyValue).

(** The options the two express-jwt middlewares are built with. *)
Inductive Secret : Type :=
| SecretBuffer (b : Buffer.t)
| SecretString (s : string).

Record V1Check := mkV1 { v1_secret : Secret; v1_audience : option string }.

Record V2Check := mkV2 {
  v2_jwksUrl : option string;
  v2_audience : option string;
  v2_issuer : string;
  v2_algorithms : list string
}.

(** What the module keeps after initialisation. *)
Record Installed := mkInstalled {
  config : Config;
  v1JwtCheck : option V1Check;
  v2JwtCheck : option V2Check;
  excluded : list Routes.Route
}.

Record Headers := mkHeaders { authorization : option string }.

Record Request := mkRequest {
  method : string;
  path : string;
  headers : option Headers;
  user : option (gmap string Js.Val)
}.

(** What a middleware does, in order.  [CallV1 None] and [CallV2 None] are
    calls of a variable that holds [undefined]. *)
Inductive Action : Type :=
| Next (err : option Js.Error)
| CallV2 (fn : option V2Check)
| CallV1 (fn : option V1Check).

(** The exception an action raises, if any. *)
Definition raises (a : Action) : option Js.Error :=
  match a with
  | CallV2 None => Some (Js.not_a_function "v2JwtCheck")
  | CallV1 None => Some (Js.not_a_function "v1JwtCheck")
  | _ => None
  end.

Section Module_exports.

Context {C : Type} `{Cache C}.

(** External collaborators: the key-set endpoint behind
    [client.getSigningKeyAsync] and [jwt.decode]. *)
Variable getSigningKey : string -> string -> Settled SigningKey.
Variable jwt_decode : option string -> DecodeOutcome.

Definition cache_get_p (key : string) : P C (option string) :=
  fun w =>
    (cache_get key (store w), mkWorld (store w) (io w ++ [IoCacheGet key])).

Definition cache_set_p (key value : string) (ttl : Z) : P C unit :=
  fun w =>
    let '(r, c) := cache_set key value ttl (store w) in
    (r, mkWorld c (io w ++ [IoCacheSet key value ttl])).

Definition getSigningKeyAsync (jwksUri kid : string) : P C SigningKey :=
  fun w =>
    (getSigningKey jwksUri kid,
     mkWorld (store w) (io w ++ [IoGetSigningKey jwksUri kid])).

Definition getAuthPublicKey (jwksUrl : option string) (kid : string)
    : P C KeyValue :=
  await data <- cache_get_p ("kid" +:+ kid);
  if negb (Js.truthy data) then
    await _ <- log (IoJwksClient true 5 (Js.to_string jwksUrl));
    then2 (getSigningKeyAsync (Js.to_string jwksUrl) kid)
      (fun key =>
         match Js.or_else (publicKey key) (rsaPublicKey key) with
         | None => reject (Js.mkError "TypeError" "First argument must be a string, Buffer, ArrayBuffer, Array, or array-like object.")
         | Some signingKey =>
             let encodedValue := Buffer.to_base64 (Buffer.from_string signingKey) in
             await _ <- cache_set_p ("kid" +:+ kid) encodedValue 36000;
             resolve (KBuffer (Buffer.from_string signingKey))
         end)
      (fun err => resolve (KError err))
  else resolve (KBuffer (Buffer.from_base64 (Js.to_string data))).

(** The [secret] callback given to express-jwt for the modern scheme; its
    value is the call of [done] it makes. *)
Definition v2JwtCheck_secret (jwksUrl : option string) (hdr : option Header)
    : P C Done :=
  match hdr with
  | None => resolve (DoneError (Js.mkError "Error" "JWT KID Not Found"))
  | Some h =>
      if negb (Js.truthy (kid h)) then
        resolve (DoneError (Js.mkError "Error" "JWT KID Not Found"))
      else
        then2 (getAuthPublicKey jwksUrl (Js.to_string (kid h)))
          (fun key =>
             if key_truthy key then resolve (DoneKey key)
             else resolve (DoneError (Js.mkError "Error"
                    ("Public Key not found for KID " +:+ Js.to_string (kid h)))))
          (fun err => resolve (DoneError err))
  end.

(** [module.exports(app, config, logger, cache)] up to the registration of
    the middlewares: [None] when there is no configuration. *)
Definition module_exports (cfg : option Config) : Js.Completion (option Installed) :=
  match cfg with
  | None => Js.Normal None
  | Some config0 =>
      let enabled := default true (enableV1 config0) in
      let config :=
        mkConfig (secret config0) (Some enabled) (clientId config0)
          (audience config0) (domain config0) (jwksUrl config0)
          (excludedRoutes config0) in
      let v1 :=
        if Js.truthy (secret config) && enabled then
          let s := Js.to_string (secret config) in
          Some (mkV1 (if BASE64_REGEX s then SecretBuffer (Buffer.from_base64 s)
                      else SecretString s)
                  (clientId config))
        else None in
      let v2 :=
        if Js.truthy (audience config) && Js.truthy (jwksUrl config) then
          Some (mkV2 (jwksUrl config) (audience config)
                  ("https://" +:+ Js.to_string (domain config) +:+ "/")
                  ["RS256"])
        else None in
      match Routes.getExcludedRoutes (excludedRoutes config) with
      | Js.Throw e => Js.Throw e
      | Js.Normal paths => Js.Normal (Some (mkInstalled config v1 v2 paths))
      end
  end.

(** The header's [alg] is the string [RS256]. *)
Definition is_RS256 (d : option Decoded) : bool :=
  match d with
  | Some (mkDecoded (Some h)) =>
      match alg h with
      | Some a => String.eqb a "RS256"
      | None => false
      end
  | _ => false
  end.

Definition header_authorization (req : Request) : option string :=
  match headers req with
  | Some h => authorization h
  | None => None
  end.

Definition unsupported : Js.Error :=
  Js.mkError ERROR_NAME "The supplied token is not supported by any enabled auth".

(** Lines 129 to 136: what follows the modern-scheme block. *)
Definition legacy_or_reject (inst : Installed) : list Action :=
  if default false (enableV1 (config inst)) then [CallV1 (v1JwtCheck inst)]
  else [Next (Some unsupported)].

Definition jwtAuthentication (inst : Installed) (req : Request) : list Action :=
  if Js.truthy (audience (config inst)) && Js.truthy (header_authorization req)
  then
    let token :=
      Js.index (Js.split " " (Js.to_string (header_authorization req))) 1 in
    match jwt_decode token with
    | DecodeThrows err =>
        Next (Some (Js.mkError ERROR_NAME (Js.Error_toString err)))
          :: legacy_or_reject inst
    | DecodeReturns decodedToken =>
        if is_RS256 decodedToken then [CallV2 (v2JwtCheck inst)]
        else legacy_or_reject inst
    end
  else legacy_or_reject inst.

(** [jwtAuthentication.unless({path: ...})]: the middleware registered
    with the application, with the pattern list afterwards. *)
Definition jwtAuthentication_unless (inst : Installed) (req : Request)
    : list Action * Installed :=
  let '(skip, paths) := Routes.isExcluded (excluded inst) (method req) (path req) in
  let inst' := mkInstalled (config inst) (v1JwtCheck inst) (v2JwtCheck inst) paths in
  (if skip then [Next None] else jwtAuthentication inst req, inst').

(** The last middleware: makes the id token available for others.  Its
    value is the request handed to [next()]. *)
Definition id_token_middleware (req : Request) : Js.Completion Request :=
  match user req with
  | None => Js.Normal req
  | Some u =>
      match headers req with
      | None => Js.Throw (Js.cannot_read "authorization")
      | Some h =>
          if Js.truthy (authorization h)
             && bool_decide (Js.index (Js.split " " (Js.to_string (authorization h))) 0
                             = Some "Bearer")
          then
            let id_token :=
              Js.index (Js.split " " (Js.to_string (authorization h))) 1 in
            Js.Normal (mkRequest (method req) (path req) (headers req)
                         (Some (<["id_token" := Js.val_of id_token]> u)))
          else Js.Normal req
      end
  end.

End Module_exports.

(** *** Collaborators used to run the module on examples *)

(** An in-memory cache: each entry is a value with the TTL it was written
    with; it never rejects. *)
#[export] Instance mem_cache : Cache (gmap string (string * Z)) := {
  cache_get key c := Fulfilled (fst <$> c !! key);
  cache_set key value ttl c := (Fulfilled tt, <[key := (value, ttl)]> c)
}.

End Auth0.

(** ** Vocabulary of the properties *)

Module Props.

Import Promise Auth0.

(** The credential the selector hands to [jwt.decode]. *)
Definition bearer_token (req : Request) : option string :=
  Js.index (Js.split " " (Js.to_string (header_authorization req))) 1.

(** The [alg] field of what [jwt.decode] returned, if it returned a token
    with a header. *)
Definition decoded_alg (o : DecodeOutcome) : option string :=
  match o with
  | DecodeReturns (Some (mkDecoded (Some h))) => alg h
  | _ => None
  end.

(** A modern audience is configured, the request carries an Authorization
    header, the token decodes without error and its header's [alg] is
    [RS256]. *)
Definition modern_applicable (jwt_decode : option string -> DecodeOutcome)
    (inst : Installed) (req : Request) : Prop :=
  Js.truthy (audience (config inst)) = true
  /\ Js.truthy (header_authorization req) = true
  /\ decoded_alg (jwt_decode (bearer_token req)) = Some "RS256".

(** The call of the modern, respectively legacy, verifier is made. *)
Definition invokes_modern (trace : list Action) : Prop :=
  exists fn, In (CallV2 fn) trace.

Definition invokes_legacy (trace : list Action) : Prop :=
  exists fn, In (CallV1 fn) trace.

(** A rejection tagged with the authentication-error discriminator. *)
Definition is_rejection (a : Action) : Prop :=
  exists e, a = Next (Some e) /\ Js.name e = ERROR_NAME.

(** The calls made on a miss, up to and including the key-set fetch. *)
Definition miss_io (jwksUrl : option string) (kid : string) : list Io :=
  [IoCacheGet ("kid" +:+ kid);
   IoJwksClient true 5 (Js.to_string jwksUrl);
   IoGetSigningKey (Js.to_string jwksUrl) kid].

(** The scheme token of an Authorization header. *)
Definition scheme_token (a : string) : option string :=
  Js.index (Js.split " " a) 0.

(** The string has no space. *)
Definition no_space (s : string) : Prop :=
  Forall (fun c => c <> " "%char) (list_ascii_of_string s).

(** The request after the id token was stored on the identity [u]. *)
Definition with_id_token (req : Request) (u : gmap string Js.Val) (v : Js.Val)
    : Request :=
  mkRequest (method req) (path req) (headers req) (Some (<["id_token" := v]> u)).

(** The pattern appended for the root path, as compiled from [^/$]. *)
Definition root_pattern : RegExp.t :=
  RegExp.mk
    (RegExp.Seq RegExp.AssertStart
       (RegExp.Seq (RegExp.Char "/") (RegExp.Seq RegExp.AssertEnd RegExp.Empty)))
    true true O.

(** A character that stands for itself in a pattern source, or [.]. *)
Definition plain_char (c : ascii) : bool :=
  Ascii.eqb c "."%char || negb (RegExp.syntax_char c).

Definition atom (c : ascii) : RegExp.Pattern :=
  if Ascii.eqb c "."%char then RegExp.Dot else RegExp.Char c.

(** The pattern of a source made of plain characters. *)
Definition literal_pattern (cs : list ascii) : RegExp.Pattern :=
  fold_right (fun c acc => RegExp.Seq (atom c) acc) RegExp.Empty cs.

(** A pattern source made of plain characters only. *)
Definition plain_source (s : string) : bool :=
  forallb plain_char (list_ascii_of_string s).

(** The regex a plain source compiles to with the flag [i]. *)
Definition literal_regexp (s : string) : RegExp.t :=
  RegExp.mk (literal_pattern (list_ascii_of_string s)) true false O.

(** A route with its pattern rewound. *)
Definition rewind_route (r : Routes.Route) : Routes.Route :=
  match r with
  | Routes.RRegExp re => Routes.RRegExp (Routes.rewind re)
  | Routes.RPair re m => Routes.RPair (Routes.rewind re) m
  | Routes.ROther => Routes.ROther
  end.

(** Equality of strings up to the case folding of the [i] flag. *)
Definition same_letters (s s' : string) : Prop :=
  Forall2 (fun c x => RegExp.canonicalize c = RegExp.canonicalize x)
    (list_ascii_of_string s) (list_ascii_of_string s').

(** [path] contains [s] as a substring, up to case. *)
Definition contains (path s : string) : Prop :=
  exists pre s' post, path = pre +:+ s' +:+ post /\ same_letters s s'.

End Props.

(** ** Example collaborators and inputs *)

Module Demo.

Import Promise Auth0.

Definition rs256_header : Header := mkHeader (Some "RS256") (Some "key-1").

(** A decoder that knows three tokens: an RS256 one, an HS256 one, and one
    whose payload is not JSON, on which it throws. *)
Definition jwt_decode (token : option string) : DecodeOutcome :=
  match token with
  | Some t =>
      if String.eqb t "eyJhbGciOiJSUzI1NiIsImtpZCI6ImtleS0xIn0.e30.c2ln" then
        DecodeReturns (Some (mkDecoded (Some rs256_header)))
      else if String.eqb t "eyJhbGciOiJIUzI1NiJ9.e30.c2ln" then
        DecodeReturns (Some (mkDecoded (Some (mkHeader (Some "HS256") None))))
      else if String.eqb t "eyJ0eXAiOiJKV1QiLCJhbGciOiJIUzI1NiJ9.bm90IGpzb24.c2ln" then
        DecodeThrows (Js.mkError "SyntaxError" "Unexpected token o in JSON at position 1")
      else DecodeReturns None
  | None => DecodeReturns None
  end.

(** A key-set endpoint with two keys. *)
Definition getSigningKey (jwksUri kid : string) : Settled SigningKey :=
  if String.eqb kid "key-1" then Fulfilled (mkSigningKey (Some "PEM-1") None)
  else if String.eqb kid "key-2" then Fulfilled (mkSigningKey None (Some "RSA-2"))
  else Rejected (Js.mkError "SigningKeyNotFoundError"
                   "Unable to find a signing key that matches the kid").

Definition empty_world : World (gmap string (string * Z)) := mkWorld ∅ [].

Definition warm_world : World (gmap string (string * Z)) :=
  mkWorld {[ "kidkey-1" := ("UEVNLTE=", 36000%Z) ]} [].

(** Nothing configured: the legacy scheme is enabled by default and has no
    secret. *)
Definition config_defaults : Config :=
  mkConfig None None None None None None None.

(** A modern audience without a key-set URL, next to a working legacy
    scheme. *)
Definition config_no_jwks : Config :=
  mkConfig (Some "s3cret!") None (Some "client") (Some "https://api.example")
    (Some "tenant.auth0.com") None None.

(** Both schemes configured. *)
Definition config_both : Config :=
  mkConfig (Some "s3cret!") None (Some "client") (Some "https://api.example")
    (Some "tenant.auth0.com") (Some "https://tenant.auth0.com/.well-known/jwks.json")
    None.


Definition installed (cfg : Config) : Installed :=
  match module_exports (Some cfg) with
  | Js.Normal (Some inst) => inst
  | _ => mkInstalled cfg None None []
  end.

(** The pattern list compiled for a list of configured exclusions. *)
Definition compiled (cfg : option (list Routes.RouteSpec)) : list Routes.Route :=
  match Routes.getExcludedRoutes cfg with
  | Js.Normal routes => routes
  | Js.Throw _ => []
  end.

Definition request (auth : option string) : Request :=
  mkRequest "GET" "/api/orders" (Some (mkHeaders auth)) None.

Definition verified_request (auth : option string) : Request :=
  mkRequest "GET" "/api/orders" (Some (mkHeaders auth))
    (Some {[ "sub" := Js.VStr "user-1" ]}).

End Demo.

(** ** Further vocabulary *)

Module MoreProps.

Import Promise Auth0 Props.

(** The action hands the request to a verifier that was built. *)
Definition hands_to_verifier (a : Action) : Prop :=
  (exists v, a = CallV1 (Some v)) \/ (exists v, a = CallV2 (Some v)).

(** The action is the call of a variable that holds [undefined]. *)
Definition raises_type_error (a : Action) : Prop :=
  exists e, raises a = Some e /\ Js.name e = "TypeError".

(** A character of the class of [BASE64_REGEX], or the padding. *)
Definition base64url_or_pad (c : ascii) : bool :=
  base64url_char c || Ascii.eqb c "="%char.

(** The two digits of standard base64 that the class leaves out. *)
Definition plus_or_slash (c : ascii) : bool :=
  Ascii.eqb c "+"%char || Ascii.eqb c "/"%char.

(** The TypeError of [new Buffer(undefined)]. *)
Definition missing_key_error : Js.Error :=
  Js.mkError "TypeError" "First argument must be a string, Buffer, ArrayBuffer, Array, or array-like object.".

Definition no_plus_or_slash (s : string) : bool :=
  forallb (fun c => negb (plus_or_slash c)) (list_ascii_of_string s).

(** The built-in exclusions, as strings. *)
Definition default_strings : list string :=
  ["/livecheck"; "/swagger"; "/authtools/widget.js"; "/authtools/connections.js"].

(** The character [c] of a plain pattern source accepts the character [x]
    of a path under the flag [i]: [.] accepts anything but a line
    terminator, any other character accepts itself up to case. *)
Definition atom_matches (c x : ascii) : bool :=
  if Ascii.eqb c "."%char then negb (RegExp.line_terminator x)
  else Ascii.eqb (RegExp.canonicalize c) (RegExp.canonicalize x).

(** The plain source [s] occurs in [path]: some substring of [path] is
    accepted character by character. *)
Definition occurs (s path : string) : Prop :=
  exists pre xs post,
    list_ascii_of_string path = pre ++ xs ++ post
    /\ Forall2 (fun c x => atom_matches c x = true) (list_ascii_of_string s) xs.

(** What is left of the input after the characters [cs]. *)
Fixpoint literal_prefix (cs s : list ascii) : option (list ascii) :=
  match cs with
  | [] => Some s
  | c :: cs' =>
      match s with
      | x :: s' => if atom_matches c x then literal_prefix cs' s' else None
      | [] => None
      end
  end.

Fixpoint occurs_in (cs s : list ascii) : bool :=
  match literal_prefix cs s with
  | Some _ => true
  | None =>
      match s with
      | [] => false
      | _ :: s' => occurs_in cs s'
      end
  end.

(** The first character of the source is a quantifier. *)
Definition leading_quantifier (s : string) : bool :=
  match s with
  | String c _ =>
      Ascii.eqb c "*"%char || Ascii.eqb c "+"%char || Ascii.eqb c "?"%char
  | EmptyString => false
  end.

End MoreProps.

(** ** Further example collaborators *)

Module MoreDemo.

Import Promise Auth0.

Definition cache_down : Js.Error := Js.mkError "Error" "Connection is closed.".

(** A cache whose backend is unreachable: every call rejects. *)
Inductive Unreachable : Type := unreachable.

#[export] Instance down_cache : Cache Unreachable := {
  cache_get _ _ := Rejected cache_down;
  cache_set _ _ _ c := (Rejected cache_down, c)
}.

Definition down_world : World Unreachable := mkWorld unreachable [].

(** A plain-text secret of eight letters. *)
Definition config_plain_secret : Config :=
  mkConfig (Some "mysecret") None (Some "client") None None None None.

(** A secret given as the standard base64 of the bytes [fb ff]. *)
Definition config_base64_secret : Config :=
  mkConfig (Some "+/8=") None (Some "client") None None None None.

(** An exclusion written as a glob. *)
Definition config_glob : Config :=
  mkConfig (Some "s3cret!") None (Some "client") None None None
    (Some [Routes.SString "/public"; Routes.SString "*.css"]).

(** Both schemes switched off. *)
Definition config_nothing : Config :=
  mkConfig (Some "s3cret!") (Some false) (Some "client") None None None None.

Definition request_to (method path : string) (auth : option string) : Request :=
  mkRequest method path (Some (mkHeaders auth)) None.

End MoreDemo.

(** ** Scheme selection *)

Module SelectorFacts.

Import Promise Auth0 Props.

Section Selector.

Variable jwt_decode : option string -> DecodeOutcome.

Lemma authentication_not_excluded (inst : Installed) (req : Request) :
  (Routes.isExcluded (excluded inst) (method req) (path req)).1 = false ->
  (jwtAuthentication_unless jwt_decode inst req).1 = jwtAuthentication jwt_decode inst req.
Proof.
  unfold jwtAuthentication_unless.
  destruct (Routes.isExcluded _ _ _) as [skip paths]; simpl.
  intros ->. reflexivity.
Qed.

Lemma authentication_excluded (inst : Installed) (req : Request) :
  (Routes.isExcluded (excluded inst) (method req) (path req)).1 = true ->
  (jwtAuthentication_unless jwt_decode inst req).1 = [Next None].
Proof.
  unfold jwtAuthentication_unless.
  destruct (Routes.isExcluded _ _ _) as [skip paths]; simpl.
  intros ->. reflexivity.
Qed.

Lemma legacy_or_reject_enabled (inst : Installed) :
  default false (enableV1 (config inst)) = true ->
  legacy_or_reject inst = [CallV1 (v1JwtCheck inst)].
Proof. unfold legacy_or_reject. intros ->. reflexivity. Qed.


Lemma legacy_or_reject_not_modern (inst : Installed) :
  ~ invokes_modern (legacy_or_reject inst).
Proof.
  unfold legacy_or_reject, invokes_modern.
  destruct (default false _); intros [fn [Hin | []]]; discriminate.
Qed.

Lemma is_RS256_alg (d : option Decoded) :
  is_RS256 d = true <-> decoded_alg (DecodeReturns d) = Some "RS256".
Proof.
  unfold is_RS256, decoded_alg.
  destruct d as [[[h|]]|]; try (split; discriminate).
  destruct (alg h) as [a|]; try (split; discriminate).
  rewrite String.eqb_eq. split; [intros -> | intros [= ->]]; reflexivity.
Qed.

(** The three shapes of a run of the selector. *)
Lemma jwtAuthentication_modern (inst : Installed) (req : Request) :
  modern_applicable jwt_decode inst req ->
  jwtAuthentication jwt_decode inst req = [CallV2 (v2JwtCheck inst)].
Proof.
  intros (Ha & Hh & Hd).
  unfold jwtAuthentication. rewrite Ha, Hh. cbn [andb].
  fold (bearer_token req).
  destruct (jwt_decode (bearer_token req)) as [err | d]; [discriminate |].
  apply is_RS256_alg in Hd. rewrite Hd. reflexivity.
Qed.

Lemma jwtAuthentication_throws (inst : Installed) (req : Request) (err : Js.Error) :
  Js.truthy (audience (config inst)) = true ->
  Js.truthy (header_authorization req) = true ->
  jwt_decode (bearer_token req) = DecodeThrows err ->
  jwtAuthentication jwt_decode inst req =
    Next (Some (Js.mkError ERROR_NAME (Js.Error_toString err)))
      :: legacy_or_reject inst.
Proof.
  intros Ha Hh Hd. unfold jwtAuthentication. rewrite Ha, Hh. cbn [andb].
  fold (bearer_token req). rewrite Hd. reflexivity.
Qed.

Lemma jwtAuthentication_shape (inst : Installed) (req : Request) :
  modern_applicable jwt_decode inst req
    /\ jwtAuthentication jwt_decode inst req = [CallV2 (v2JwtCheck inst)]
  \/ ~ modern_applicable jwt_decode inst req
    /\ (jwtAuthentication jwt_decode inst req = legacy_or_reject inst
        \/ exists err,
             jwt_decode (bearer_token req) = DecodeThrows err
             /\ jwtAuthentication jwt_decode inst req =
                  Next (Some (Js.mkError ERROR_NAME (Js.Error_toString err)))
                    :: legacy_or_reject inst).
Proof.
  destruct (Js.truthy (audience (config inst))) eqn:Ha.
  2:{ right. split.
      - intros (Ha' & _). congruence.
      - left. unfold jwtAuthentication. rewrite Ha. reflexivity. }
  destruct (Js.truthy (header_authorization req)) eqn:Hh.
  2:{ right. split.
      - intros (_ & Hh' & _). congruence.
      - left. unfold jwtAuthentication. rewrite Ha, Hh. reflexivity. }
  destruct (jwt_decode (bearer_token req)) as [err | d] eqn:Hd.
  - right. split.
    + intros (_ & _ & Hd'). rewrite Hd in Hd'. discriminate.
    + right. exists err. split; [reflexivity |].
      now apply jwtAuthentication_throws.
  - destruct (is_RS256 d) eqn:Hr.
    + left. assert (modern_applicable jwt_decode inst req) as Hm.
      { repeat split; try assumption. rewrite Hd. now apply is_RS256_alg. }
      split; [assumption | now apply jwtAuthentication_modern].
    + right. split.
      * intros (_ & _ & Hd'). rewrite Hd in Hd'.
        apply is_RS256_alg in Hd'. congruence.
      * left. unfold jwtAuthentication. rewrite Ha, Hh. cbn [andb].
        fold (bearer_token req). rewrite Hd, Hr. reflexivity.
Qed.

(** Which verifiers initialisation builds: the legacy one when a secret is
    configured and [enableV1] is not false, the modern one when both an
    audience and a key-set URL are configured. *)
Lemma module_exports_verifiers (cfg : Config) (inst : Installed) :
  module_exports (Some cfg) = Js.Normal (Some inst) ->
  (is_Some (v1JwtCheck inst)
   <-> Js.truthy (secret cfg) = true /\ default true (enableV1 cfg) = true)
  /\ (is_Some (v2JwtCheck inst)
      <-> Js.truthy (audience cfg) = true /\ Js.truthy (jwksUrl cfg) = true)
  /\ enableV1 (config inst) = Some (default true (enableV1 cfg))
  /\ audience (config inst) = audience cfg.
Proof.
  unfold module_exports. cbn [secret audience jwksUrl].
  destruct (Routes.getExcludedRoutes _) as [paths | e]; [| discriminate].
  intros [= <-]. cbn [v1JwtCheck v2JwtCheck config enableV1 audience].
  split; [| split; [| split]]; try reflexivity.
  - destruct (Js.truthy (secret cfg)), (default true (enableV1 cfg)); cbn;
      split; intros Hx;
      first [solve [eauto] | solve [split; reflexivity]
            | destruct Hx as [? ?]; discriminate].
  - destruct (Js.truthy (audience cfg)), (Js.truthy (jwksUrl cfg)); cbn;
      split; intros Hx;
      first [solve [eauto] | solve [split; reflexivity]
            | destruct Hx as [? ?]; discriminate].
Qed.

(** C1: what the selector does when the unverified decode throws.  After
    handing the tagged rejection to [next] it goes on to the legacy block:
    the run has two actions, the second being the call of the legacy
    verifier when the legacy scheme is enabled and a second rejection
    otherwise. *)
Theorem decode_throw_continues (inst : Installed) (req : Request) (err : Js.Error) :
  (Routes.isExcluded (excluded inst) (method req) (path req)).1 = false ->
  Js.truthy (audience (config inst)) = true ->
  Js.truthy (header_authorization req) = true ->
  jwt_decode (bearer_token req) = DecodeThrows err ->
  (jwtAuthentication_unless jwt_decode inst req).1 =
    [Next (Some (Js.mkError ERROR_NAME (Js.Error_toString err)));
     if default false (enableV1 (config inst)) then CallV1 (v1JwtCheck inst)
     else Next (Some unsupported)].
Proof.
  intros Hx Ha Hh Hd.
  rewrite authentication_not_excluded by assumption.
  rewrite (jwtAuthentication_throws inst req err) by assumption.
  unfold legacy_or_reject. destruct (default false _); reflexivity.
Qed.


End Selector.

(** C9: two configurations that initialisation accepts and under which a
    request that is not excluded makes the selector call a variable holding
    [undefined]: nothing configured (legacy enabled by default, no secret),
    and a modern audience without a key-set URL on a request whose token
    decodes to an RS256 header.  The call raises a TypeError, whose name is
    not "UnauthorizedError". *)
Theorem undefined_verifier_called (jwt_decode : option string -> DecodeOutcome) :
  (exists inst,
     module_exports (Some Demo.config_defaults) = Js.Normal (Some inst)
     /\ (Routes.isExcluded (excluded inst) "GET" "/api/orders").1 = false
     /\ (jwtAuthentication_unless jwt_decode inst (Demo.request None)).1 = [CallV1 None])
  /\ (forall auth,
        Js.truthy (Some auth) = true ->
        decoded_alg (jwt_decode (bearer_token (Demo.request (Some auth))))
        = Some "RS256" ->
        exists inst,
          module_exports (Some Demo.config_no_jwks) = Js.Normal (Some inst)
          /\ (Routes.isExcluded (excluded inst) "GET" "/api/orders").1 = false
          /\ (jwtAuthentication_unless jwt_decode inst (Demo.request (Some auth))).1
             = [CallV2 None])
  /\ (forall a e, In a [CallV1 None; CallV2 None] -> raises a = Some e ->
        Js.name e = "TypeError" /\ Js.name e <> ERROR_NAME).
Proof.
  split; [| split].
  - eexists. split; [vm_compute; reflexivity |].
    split; [vm_compute; reflexivity |].
    rewrite authentication_not_excluded by (vm_compute; reflexivity).
    reflexivity.
  - intros auth Ha Hd. eexists. split; [vm_compute; reflexivity |].
    split; [vm_compute; reflexivity |].
    rewrite authentication_not_excluded by (vm_compute; reflexivity).
    rewrite jwtAuthentication_modern; [reflexivity |].
    repeat split; assumption.
  - intros a e [<- | [<- | []]] [= <-]; split; (reflexivity || discriminate).
Qed.

End SelectorFacts.

(** ** Base64 *)

Module Base64Facts.

Import Buffer.

Lemma below_spec (n : N) (P : N -> bool) :
  below n P = true -> forall x, x < n -> P x = true.
Proof.
  unfold below. intros Hall x Hx.
  pose proof (proj1 (forallb_forall _ _) Hall (N.to_nat x)) as Hp.
  cbv beta in Hp. rewrite N2Nat.id in Hp. apply Hp.
  apply in_seq. lia.
Qed.

Lemma below2_spec (n m : N) (P : N -> N -> bool) :
  below n (fun x => below m (P x)) = true ->
  forall x y, x < n -> y < m -> P x y = true.
Proof.
  intros Hall x y Hx Hy.
  apply (below_spec m (P x)); [| assumption].
  now apply (below_spec n (fun x => below m (P x))).
Qed.

Lemma byte_bounded (a : Byte.byte) : Byte.to_N a < 256.
Proof. pose proof (Byte.to_N_bounded a). lia. Qed.

Lemma byte_of_N_to_N (a : Byte.byte) : byte_of_N (Byte.to_N a) = a.
Proof.
  unfold byte_of_N. rewrite <- ascii_of_byte_via_N.
  apply byte_of_ascii_of_byte.
Qed.

(** Every digit is read back, and none of them is the padding. *)
Lemma digit_read_back (i : N) :
  i < 64 ->
  b64_value (b64_char i) = Some i /\ Ascii.eqb (b64_char i) "=" = false.
Proof.
  intros Hi.
  pose proof (below_spec 64
    (fun i => match b64_value (b64_char i) with
              | Some j => N.eqb i j
              | None => false
              end && negb (Ascii.eqb (b64_char i) "="))
    ltac:(vm_compute; reflexivity) i Hi) as Hc.
  cbv beta in Hc. apply andb_true_iff in Hc as [Hv Hp].
  destruct (b64_value (b64_char i)) as [j |]; [| discriminate].
  apply N.eqb_eq in Hv. subst j.
  split; [reflexivity | now apply negb_true_iff].
Qed.

Lemma sextet_bounds (x y z : N) :
  x < 256 -> y < 256 -> z < 256 ->
  sextet1 x < 64 /\ sextet2 x y < 64 /\ sextet3 y z < 64 /\ sextet4 z < 64.
Proof.
  intros Hx Hy Hz.
  pose proof (below2_spec 256 256
    (fun x y => (sextet1 x <? 64) && (sextet2 x y <? 64) && (sextet3 x y <? 64)
                && (sextet4 x <? 64))
    ltac:(vm_compute; reflexivity)) as Hc.
  pose proof (Hc x y Hx Hy) as Hxy. pose proof (Hc y z Hy Hz) as Hyz.
  pose proof (Hc z z Hz Hz) as Hzz.
  cbv beta in *.
  rewrite !andb_true_iff, !N.ltb_lt in Hxy, Hyz, Hzz. tauto.
Qed.

Lemma octet1_sextets (x y : N) :
  x < 256 -> y < 256 -> octet1 (sextet1 x) (sextet2 x y) = x.
Proof.
  intros Hx Hy. apply N.eqb_eq.
  exact (below2_spec 256 256
           (fun x y => N.eqb (octet1 (sextet1 x) (sextet2 x y)) x)
           ltac:(vm_compute; reflexivity) x y Hx Hy).
Qed.

Lemma octet2_sextets (x y z : N) :
  x < 256 -> y < 256 -> z < 256 -> octet2 (sextet2 x y) (sextet3 y z) = y.
Proof.
  intros Hx Hy Hz. unfold octet2.
  assert (N.land (sextet2 x y) 15 = N.shiftr y 4) as ->.
  { apply N.eqb_eq.
    exact (below2_spec 256 256
             (fun x y => N.eqb (N.land (sextet2 x y) 15) (N.shiftr y 4))
             ltac:(vm_compute; reflexivity) x y Hx Hy). }
  assert (N.shiftr (sextet3 y z) 2 = N.land y 15) as ->.
  { apply N.eqb_eq.
    exact (below2_spec 256 256
             (fun y z => N.eqb (N.shiftr (sextet3 y z) 2) (N.land y 15))
             ltac:(vm_compute; reflexivity) y z Hy Hz). }
  apply N.eqb_eq.
  exact (below_spec 256
           (fun y => N.eqb (N.lor (N.shiftl (N.shiftr y 4) 4) (N.land y 15)) y)
           ltac:(vm_compute; reflexivity) y Hy).
Qed.

Lemma octet3_sextets (y z : N) :
  y < 256 -> z < 256 -> octet3 (sextet3 y z) (sextet4 z) = z.
Proof.
  intros Hy Hz. apply N.eqb_eq.
  exact (below2_spec 256 256
           (fun y z => N.eqb (octet3 (sextet3 y z) (sextet4 z)) z)
           ltac:(vm_compute; reflexivity) y z Hy Hz).
Qed.

Lemma b64_digits_digit (i : N) (rest : string) :
  i < 64 -> b64_digits (String (b64_char i) rest) = i :: b64_digits rest.
Proof.
  intros Hi. destruct (digit_read_back i Hi) as [Hv Hp].
  cbn [b64_digits]. now rewrite Hp, Hv.
Qed.

(** Decoding what [to_base64] produced gives the bytes back. *)
Lemma from_base64_to_base64 (bs : t) : from_base64 (to_base64 bs) = bs.
Proof.
  unfold from_base64.
  assert (forall n (bs : t), (length bs <= n)%nat ->
            b64_groups (b64_digits (to_base64 bs)) = bs) as Hind.
  { clear bs. induction n as [| n IH]; intros bs Hlen.
    - destruct bs; [reflexivity | cbn in Hlen; lia].
    - destruct bs as [| a [| b [| c rest]]]; [reflexivity | | |].
      + pose proof (byte_bounded a) as Ha.
        destruct (sextet_bounds (Byte.to_N a) 0 0 Ha ltac:(lia) ltac:(lia))
          as (H1 & H2 & _).
        cbn [to_base64]. rewrite !b64_digits_digit by assumption.
        cbn [b64_digits Ascii.eqb Bool.eqb b64_groups].
        rewrite octet1_sextets by (assumption || lia).
        now rewrite byte_of_N_to_N.
      + pose proof (byte_bounded a) as Ha. pose proof (byte_bounded b) as Hb.
        destruct (sextet_bounds (Byte.to_N a) (Byte.to_N b) 0 Ha Hb ltac:(lia))
          as (H1 & H2 & H3 & _).
        cbn [to_base64]. rewrite !b64_digits_digit by assumption.
        cbn [b64_digits Ascii.eqb Bool.eqb b64_groups].
        rewrite octet1_sextets by assumption.
        rewrite (octet2_sextets (Byte.to_N a)) by (assumption || lia).
        now rewrite !byte_of_N_to_N.
      + pose proof (byte_bounded a) as Ha. pose proof (byte_bounded b) as Hb.
        pose proof (byte_bounded c) as Hc.
        destruct (sextet_bounds (Byte.to_N a) (Byte.to_N b) (Byte.to_N c) Ha Hb Hc)
          as (H1 & H2 & H3 & H4).
        cbn [to_base64]. rewrite !b64_digits_digit by assumption.
        cbn [b64_groups].
        rewrite octet1_sextets, (octet2_sextets (Byte.to_N a)), octet3_sextets
          by assumption.
        rewrite !byte_of_N_to_N. rewrite IH; [reflexivity |].
        cbn [length] in Hlen. lia. }
  now apply (Hind (length bs)).
Qed.

Lemma to_base64_truthy (bs : t) :
  bs <> [] -> Js.truthy (Some (to_base64 bs)) = true.
Proof.
  destruct bs as [| a [| b [| c rest]]]; [congruence | | |]; intros _; reflexivity.
Qed.

Lemma from_string_nonempty (s : string) : s <> "" -> from_string s <> [].
Proof.
  destruct s as [| c s]; [congruence |]. intros _. cbn [from_string].
  unfold utf8_unit. destruct (N_of_ascii c <? 128); discriminate.
Qed.

End Base64Facts.

(** ** Key resolution *)

Module ResolverFacts.

Import Promise Auth0 Props.

Section Resolver.

Context {C : Type} `{Cache C}.
Variable getSigningKey : string -> string -> Settled SigningKey.

Lemma getAuthPublicKey_miss (jwksUrl : option string) (kid : string)
    (w : World C) (data : option string) :
  cache_get ("kid" +:+ kid) (store w) = Fulfilled data ->
  Js.truthy data = false ->
  getAuthPublicKey getSigningKey jwksUrl kid w =
    match getSigningKey (Js.to_string jwksUrl) kid with
    | Rejected err =>
        (Fulfilled (KError err), mkWorld (store w) (io w ++ miss_io jwksUrl kid))
    | Fulfilled key =>
        match Js.or_else (publicKey key) (rsaPublicKey key) with
        | None =>
            (Rejected (Js.mkError "TypeError" "First argument must be a string, Buffer, ArrayBuffer, Array, or array-like object."),
             mkWorld (store w) (io w ++ miss_io jwksUrl kid))
        | Some signingKey =>
            let encodedValue := Buffer.to_base64 (Buffer.from_string signingKey) in
            let '(r, c) := cache_set ("kid" +:+ kid) encodedValue 36000 (store w) in
            (match r with
             | Fulfilled _ => Fulfilled (KBuffer (Buffer.from_string signingKey))
             | Rejected e => Rejected e
             end,
             mkWorld c (io w ++ miss_io jwksUrl kid
                          ++ [IoCacheSet ("kid" +:+ kid) encodedValue 36000]))
        end
    end.
Proof.
  intros Hget Hdata.
  unfold getAuthPublicKey, then_, then2, cache_get_p, cache_set_p, log,
    getSigningKeyAsync, resolve, reject, miss_io.
  cbn [store io]. rewrite Hget, Hdata. cbn [negb store io].
  destruct (getSigningKey (Js.to_string jwksUrl) kid) as [key | err].
  - destruct (Js.or_else (publicKey key) (rsaPublicKey key)) as [sk |].
    + cbn [store io].
      destruct (cache_set _ _ _ _) as [[[] | e] c];
        rewrite <- !app_assoc; reflexivity.
    + rewrite <- !app_assoc. reflexivity.
  - rewrite <- !app_assoc. reflexivity.
Qed.

(** C3: on a cache miss whose key-set fetch fails, [getAuthPublicKey] is
    fulfilled with the error object and does not reject; the secret
    callback of the modern verifier therefore calls [done(null, err)]
    through its success continuation, not [done(err)]. *)
Theorem fetch_failure_is_fulfilled (jwksUrl : option string) (kid : string)
    (w : World C) (data : option string) (err : Js.Error) :
  cache_get ("kid" +:+ kid) (store w) = Fulfilled data ->
  Js.truthy data = false ->
  getSigningKey (Js.to_string jwksUrl) kid = Rejected err ->
  let w' := mkWorld (store w) (io w ++ miss_io jwksUrl kid) in
  getAuthPublicKey getSigningKey jwksUrl kid w = (Fulfilled (KError err), w')
  /\ (forall a, Js.truthy (Some kid) = true ->
        v2JwtCheck_secret getSigningKey jwksUrl (Some (mkHeader a (Some kid))) w
        = (Fulfilled (DoneKey (KError err)), w')).
Proof.
  intros Hget Hdata Hfetch w'.
  assert (getAuthPublicKey getSigningKey jwksUrl kid w
          = (Fulfilled (KError err), w')) as Hres.
  { rewrite (getAuthPublicKey_miss jwksUrl kid w data Hget Hdata), Hfetch.
    reflexivity. }
  split; [exact Hres |].
  intros a Hkid. unfold v2JwtCheck_secret. cbn [Auth0.kid]. rewrite Hkid. cbn [negb].
  unfold then2. cbn [Js.to_string]. rewrite Hres. reflexivity.
Qed.

(** C4: on a cache miss whose key-set fetch succeeds, with [sk] the general
    public key when it is present and the RSA-specific one otherwise, the
    resolver writes the base64 encoding of [sk] under ["kid" + keyId] with
    a TTL of 36000 and, once the cache acknowledges, is fulfilled with the
    raw bytes of [sk]. *)
Theorem fetch_success_caches_key (jwksUrl : option string) (kid : string)
    (w : World C) (data : option string) (key : SigningKey) (sk : string)
    (c' : C) :
  cache_get ("kid" +:+ kid) (store w) = Fulfilled data ->
  Js.truthy data = false ->
  getSigningKey (Js.to_string jwksUrl) kid = Fulfilled key ->
  (Js.truthy (publicKey key) = true /\ publicKey key = Some sk
   \/ Js.truthy (publicKey key) = false /\ rsaPublicKey key = Some sk) ->
  cache_set ("kid" +:+ kid) (Buffer.to_base64 (Buffer.from_string sk)) 36000
    (store w) = (Fulfilled tt, c') ->
  getAuthPublicKey getSigningKey jwksUrl kid w =
    (Fulfilled (KBuffer (Buffer.from_string sk)),
     mkWorld c'
       (io w ++ miss_io jwksUrl kid
          ++ [IoCacheSet ("kid" +:+ kid)
                (Buffer.to_base64 (Buffer.from_string sk)) 36000])).
Proof.
  intros Hget Hdata Hfetch Hsel Hset.
  rewrite (getAuthPublicKey_miss jwksUrl kid w data Hget Hdata), Hfetch.
  assert (Js.or_else (publicKey key) (rsaPublicKey key) = Some sk) as ->.
  { unfold Js.or_else. destruct Hsel as [[-> <-] | [-> <-]]; reflexivity. }
  cbn zeta. rewrite Hset. reflexivity.
Qed.

Lemma truthy_nonempty (data : string) :
  data <> "" -> Js.truthy (Some data) = true.
Proof.
  intros Hne. unfold Js.truthy.
  destruct (String.eqb_spec data ""); [congruence | reflexivity].
Qed.

(** C5: when the lookup of ["kid" + keyId] is fulfilled with a stored
    (non-empty) value, the resolver is fulfilled with the base64 decoding
    of that value; the lookup is the only call it makes (no key-set client,
    no fetch, no cache write) and the cache is left as it was. *)
Theorem cache_hit_decodes (jwksUrl : option string) (kid : string)
    (w : World C) (data : string) :
  cache_get ("kid" +:+ kid) (store w) = Fulfilled (Some data) ->
  data <> "" ->
  getAuthPublicKey getSigningKey jwksUrl kid w =
    (Fulfilled (KBuffer (Buffer.from_base64 data)),
     mkWorld (store w) (io w ++ [IoCacheGet ("kid" +:+ kid)])).
Proof.
  intros Hget Hne.
  unfold getAuthPublicKey, then_, cache_get_p, resolve.
  cbn [store io]. rewrite Hget.
  rewrite (truthy_nonempty data Hne). reflexivity.
Qed.

End Resolver.

(** X8: with the in-memory cache, a resolution that had to fetch leaves
    the entry behind, and the next resolution of the same key id is a hit
    that yields the same bytes with the lookup as its only call. *)
Lemma second_resolution_hits
    (getSigningKey : string -> string -> Settled SigningKey)
    (jwksUrl : option string) (kid : string)
    (w : World (gmap string (string * Z))) (key : SigningKey) (sk : string) :
  store w !! ("kid" +:+ kid) = None ->
  getSigningKey (Js.to_string jwksUrl) kid = Fulfilled key ->
  Js.or_else (publicKey key) (rsaPublicKey key) = Some sk ->
  sk <> "" ->
  exists w1,
    getAuthPublicKey getSigningKey jwksUrl kid w
    = (Fulfilled (KBuffer (Buffer.from_string sk)), w1)
    /\ store w1 !! ("kid" +:+ kid)
       = Some (Buffer.to_base64 (Buffer.from_string sk), 36000%Z)
    /\ getAuthPublicKey getSigningKey jwksUrl kid w1
       = (Fulfilled (KBuffer (Buffer.from_string sk)),
          mkWorld (store w1) (io w1 ++ [IoCacheGet ("kid" +:+ kid)])).
Proof.
  intros Hnone Hfetch Hsel Hne.
  assert (cache_get ("kid" +:+ kid) (store w) = Fulfilled None) as Hget.
  { cbn. now rewrite Hnone. }
  rewrite (getAuthPublicKey_miss getSigningKey jwksUrl kid w None Hget eq_refl).
  rewrite Hfetch, Hsel. cbn zeta. cbn [cache_set mem_cache].
  eexists. split; [reflexivity |]. cbn [store].
  split; [apply lookup_insert_eq |].
  unfold getAuthPublicKey at 1, then_, cache_get_p, resolve.
  cbn [store io cache_get mem_cache]. rewrite lookup_insert_eq.
  cbn [fmap option_fmap option_map fst].
  rewrite (Base64Facts.to_base64_truthy (Buffer.from_string sk)
             (Base64Facts.from_string_nonempty sk Hne)).
  cbn [negb Js.to_string].
  now rewrite Base64Facts.from_base64_to_base64.
Qed.

End ResolverFacts.

(** ** Identity propagation *)

Module IdentityFacts.

Import Auth0 Props.

Lemma split_no_sep (s : string) :
  no_space s -> Js.split " " s = [s].
Proof.
  unfold no_space. induction s as [| c s IH]; intros Hs; [reflexivity |].
  cbn in Hs. apply Forall_cons in Hs as [Hc Hs].
  cbn [Js.split]. destruct (Ascii.eqb_spec c " "); [congruence |].
  rewrite IH by assumption. reflexivity.
Qed.

Lemma split_bearer (cred : string) :
  no_space cred -> Js.split " " ("Bearer " +:+ cred) = ["Bearer"; cred].
Proof.
  intros Hs.
  change (Js.split " " ("Bearer " +:+ cred)) with ("Bearer" :: Js.split " " cred).
  rewrite (split_no_sep cred Hs). reflexivity.
Qed.

Lemma scheme_token_truthy (a : string) :
  scheme_token a = Some "Bearer" -> Js.truthy (Some a) = true.
Proof.
  destruct a; [discriminate | reflexivity].
Qed.

Lemma id_token_middleware_bearer (req : Request) (u : gmap string Js.Val)
    (a : string) :
  user req = Some u ->
  header_authorization req = Some a ->
  scheme_token a = Some "Bearer" ->
  id_token_middleware req =
    Js.Normal (with_id_token req u (Js.val_of (Js.index (Js.split " " a) 1))).
Proof.
  intros Hu Ha Hs. unfold id_token_middleware, header_authorization in *.
  rewrite Hu. destruct (headers req) as [h |] eqn:Hh; [| discriminate].
  rewrite Ha. rewrite (scheme_token_truthy a Hs). cbn [andb Js.to_string].
  unfold scheme_token in Hs. rewrite Hs.
  rewrite bool_decide_eq_true_2 by reflexivity.
  unfold with_id_token. rewrite Hh. reflexivity.
Qed.

Lemma id_token_middleware_other (req : Request) :
  ~ (exists u a, user req = Some u /\ header_authorization req = Some a
                 /\ scheme_token a = Some "Bearer") ->
  id_token_middleware req = Js.Normal req
  \/ exists e, id_token_middleware req = Js.Throw e.
Proof.
  intros Hn. unfold id_token_middleware, header_authorization in *.
  destruct (user req) as [u |] eqn:Hu; [| now left].
  destruct (headers req) as [h |]; [| right; eauto].
  destruct (Js.truthy (authorization h)) eqn:Ht; [| now left].
  destruct (authorization h) as [a |]; [| discriminate].
  cbn [andb Js.to_string]. case_bool_decide as Hs; [| now left].
  exfalso. apply Hn. exists u, a. auto.
Qed.

Lemma bearer_dec (req : Request) :
  (exists u a, user req = Some u /\ header_authorization req = Some a
               /\ scheme_token a = Some "Bearer")
  \/ ~ (exists u a, user req = Some u /\ header_authorization req = Some a
                   /\ scheme_token a = Some "Bearer").
Proof.
  destruct (user req) as [u |]; [| right; intros (u & a & Hu & _); discriminate].
  destruct (header_authorization req) as [a |];
    [| right; intros (u' & a & _ & Ha & _); discriminate].
  destruct (decide (scheme_token a = Some "Bearer")) as [Hs | Hs].
  - left. eauto.
  - right. intros (u' & a' & _ & [= <-] & Hs'). contradiction.
Qed.

(** C7: the middleware stores [id_token] on the identity when the request
    has an identity and the scheme token of its Authorization header is
    exactly [Bearer], and in no other case (it then passes the request on
    unchanged, or throws when the request has no header object); so, for an
    identity that does not carry the field yet, the field is present
    afterwards if and only if that condition holds.  The value stored is
    the token that follows the scheme token, which for a header
    [Bearer <credential>] is the credential.  A request without an identity
    is passed on unchanged. *)
Theorem id_token_set_iff (req : Request) :
  let bearer :=
    exists u a, user req = Some u /\ header_authorization req = Some a
                /\ scheme_token a = Some "Bearer" in
  (forall u a, user req = Some u -> header_authorization req = Some a ->
     scheme_token a = Some "Bearer" ->
     id_token_middleware req =
       Js.Normal (with_id_token req u (Js.val_of (Js.index (Js.split " " a) 1))))
  /\ (~ bearer ->
      id_token_middleware req = Js.Normal req
      \/ exists e, id_token_middleware req = Js.Throw e)
  /\ ((forall u, user req = Some u -> u !! "id_token" = None) ->
      ((exists req' u', id_token_middleware req = Js.Normal req'
                        /\ user req' = Some u' /\ is_Some (u' !! "id_token"))
       <-> bearer))
  /\ (forall u cred, user req = Some u ->
        header_authorization req = Some ("Bearer " +:+ cred) ->
        no_space cred ->
        id_token_middleware req = Js.Normal (with_id_token req u (Js.VStr cred)))
  /\ (user req = None -> id_token_middleware req = Js.Normal req).
Proof.
  intros bearer. subst bearer. split; [| split; [| split; [| split]]].
  - intros u a. apply id_token_middleware_bearer.
  - apply id_token_middleware_other.
  - intros Hfresh. split.
    + intros (req' & u' & Hres & Hu' & Hset).
      destruct (bearer_dec req) as [Hb | Hn]; [assumption |].
      destruct (id_token_middleware_other req Hn) as [Heq | [e Heq]];
        rewrite Heq in Hres; [| discriminate].
      injection Hres as <-. rewrite (Hfresh u' Hu') in Hset.
      destruct Hset as [v Hv]. discriminate.
    + intros (u & a & Hu & Ha & Hs).
      eexists _, _. split; [eapply id_token_middleware_bearer; eassumption |].
      split; [reflexivity |]. rewrite lookup_insert_eq. eauto.
  - intros u cred Hu Ha Hs.
    rewrite (id_token_middleware_bearer req u _ Hu Ha).
    + rewrite split_bearer by assumption. reflexivity.
    + unfold scheme_token. rewrite split_bearer by assumption. reflexivity.
  - intros Hu. unfold id_token_middleware. rewrite Hu. reflexivity.
Qed.

End IdentityFacts.

(** ** Route exclusion *)

Module RoutesFacts.

Import Routes Props.

(** *** The matcher leaves rewound patterns alone *)

Lemma rewind_exec (re : RegExp.t) (str : string) :
  rewind (RegExp.exec re str).2 = rewind re.
Proof.
  unfold RegExp.exec, rewind.
  destruct (Nat.ltb _ _); [destruct (RegExp.global re) eqn:Hg; cbn; now rewrite ?Hg |].
  destruct (RegExp.search _ _ _ _) as [[b e] |];
    destruct (RegExp.global re) eqn:Hg; cbn; now rewrite ?Hg.
Qed.

Lemma route_match_rewinds (r : Route) (method path : string) :
  (route_match r method path).2 = rewind_route r.
Proof.
  destruct r as [re | re m |]; cbn; [| | reflexivity].
  - unfold isUrlMatch. pose proof (rewind_exec re path) as Hr.
    destruct (RegExp.exec re path) as [mt re']. cbn in *. now rewrite Hr.
  - unfold isUrlMatch. pose proof (rewind_exec re path) as Hr.
    destruct (RegExp.exec re path) as [mt re']. cbn in *. now rewrite Hr.
Qed.

Lemma isExcluded_keeps (r : Route) (routes : list Route) (method path : string) :
  In r routes -> rewind_route r = r ->
  In r (isExcluded routes method path).2.
Proof.
  intros Hin Hfix. induction routes as [| r0 rs IH]; [destruct Hin |].
  cbn [isExcluded].
  pose proof (route_match_rewinds r0 method path) as Hr0.
  destruct (route_match r0 method path) as [b r0']. cbn in Hr0. subst r0'.
  destruct b.
  - cbn. destruct Hin as [-> | Hin]; [left; assumption | right; assumption].
  - destruct (isExcluded rs method path) as [b' rs'] eqn:Hrs. cbn in *.
    destruct Hin as [-> | Hin]; [left; assumption | right; now apply IH].
Qed.

Lemma isExcluded_found (r : Route) (routes : list Route) (method path : string) :
  In r routes -> (route_match r method path).1 = true ->
  (isExcluded routes method path).1 = true.
Proof.
  intros Hin Hm. induction routes as [| r0 rs IH]; [destruct Hin |].
  cbn [isExcluded].
  destruct (route_match r0 method path) as [b r0'] eqn:Hr0.
  destruct b; [reflexivity |].
  destruct (isExcluded rs method path) as [b' rs'] eqn:Hrs. cbn in *.
  destruct Hin as [-> | Hin]; [rewrite Hr0 in Hm; discriminate | now apply IH].
Qed.

(** A pattern that is already rewound and matches a request excludes it
    wherever the request stands in a run. *)
Lemma stable_route_excludes (r : Route) (method path : string) :
  rewind_route r = r ->
  (route_match r method path).1 = true ->
  forall (reqs : list (string * string)) (routes : list Route) (i : nat),
    In r routes ->
    reqs !! i = Some (method, path) ->
    isExcluded_all routes reqs !! i = Some true.
Proof.
  intros Hfix Hm reqs.
  induction reqs as [| [m p] reqs IH]; intros routes i Hin Hi; [discriminate |].
  cbn [isExcluded_all].
  pose proof (isExcluded_keeps r routes m p Hin Hfix) as Hkeep.
  destruct (isExcluded routes m p) as [b routes'] eqn:Hstep. cbn in Hkeep.
  destruct i as [| i].
  - injection Hi as -> ->. cbn.
    pose proof (isExcluded_found r routes method path Hin Hm) as Hf.
    rewrite Hstep in Hf. cbn in Hf. now subst b.
  - cbn in *. now apply IH.
Qed.

(** *** What [getExcludedRoutes] returns *)

Lemma new_RegExp_root : new_RegExp "^/$" "ig" = Js.Normal root_pattern.
Proof. reflexivity. Qed.

Lemma getExcludedRoutes_inv (cfg : option (list RouteSpec)) (routes : list Route) :
  getExcludedRoutes cfg = Js.Normal routes ->
  exists compiled,
    map_routes (union defaultExcludedRoutes (default [] cfg)) = Js.Normal compiled
    /\ routes = compiled ++ [RRegExp root_pattern].
Proof.
  unfold getExcludedRoutes. rewrite new_RegExp_root.
  destruct (map_routes _) as [compiled | e]; [| discriminate].
  intros [= <-]. eauto.
Qed.

Lemma map_routes_In (l : list RouteSpec) (rs : list Route) (x : RouteSpec)
    (r : Route) :
  map_routes l = Js.Normal rs -> In x l -> compile_route x = Js.Normal r ->
  In r rs.
Proof.
  revert rs. induction l as [| y l IH]; intros rs Hmap Hin Hx; [destruct Hin |].
  cbn [map_routes] in Hmap.
  destruct (compile_route y) as [ry | e] eqn:Hy; [| discriminate].
  destruct (map_routes l) as [rs' | e]; [| discriminate].
  injection Hmap as <-.
  destruct Hin as [-> | Hin].
  - left. congruence.
  - right. now apply IH.
Qed.

Lemma uniq_keeps_string (s : string) (l seen : list RouteSpec) :
  In (SString s) l ->
  In (SString s) (uniq seen l) \/ In (SString s) seen.
Proof.
  revert seen. induction l as [| x l IH]; intros seen Hin; [destruct Hin |].
  cbn [uniq]. destruct (existsb (same_value x) seen) eqn:Hseen.
  - destruct Hin as [-> | Hin]; [| now apply IH].
    right. apply existsb_exists in Hseen as (y & Hy & Hsame).
    destruct y; cbn in Hsame; try discriminate.
    apply String.eqb_eq in Hsame. now subst.
  - destruct Hin as [-> | Hin]; [left; now left |].
    destruct (IH (x :: seen) Hin) as [H1 | [-> | H2]].
    + left. now right.
    + left. now left.
    + now right.
Qed.

Lemma union_keeps_string (s : string) (a b : list RouteSpec) :
  In (SString s) (a ++ b) -> In (SString s) (union a b).
Proof.
  intros Hin. destruct (uniq_keeps_string s (a ++ b) [] Hin) as [H1 | []].
  exact H1.
Qed.

(** *** The root pattern *)

Lemma canonicalize_slash (x : ascii) :
  RegExp.canonicalize "/" = RegExp.canonicalize x -> x = "/"%char.
Proof.
  destruct x as [[] [] [] [] [] [] [] []]; vm_compute; intros Hc;
    first [reflexivity | discriminate].
Qed.

Lemma root_search_later (i : nat) (s : list ascii) :
  RegExp.search true (RegExp.pattern root_pattern) (S i) s = None.
Proof.
  revert i. induction s as [| x s IH]; intros i; [reflexivity |].
  cbn [RegExp.search]. cbn. apply IH.
Qed.

Lemma search_unfold (ic : bool) (r : RegExp.Pattern) (i : nat) (s : list ascii) :
  RegExp.search ic r i s =
    match RegExp.run ic r i s (fun e _ => Some e) with
    | Some e => Some (i, e)
    | None =>
        match s with
        | [] => None
        | _ :: s' => RegExp.search ic r (S i) s'
        end
    end.
Proof. destruct s; reflexivity. Qed.

Lemma root_search_zero (s : list ascii) :
  is_Some (RegExp.search true (RegExp.pattern root_pattern) 0 s) ->
  s = ["/"%char].
Proof.
  rewrite search_unfold. destruct s as [| x s].
  - cbn. intros [v Hv]. discriminate.
  - rewrite root_search_later.
    cbn [RegExp.run RegExp.pattern root_pattern Nat.eqb].
    unfold RegExp.char_match.
    destruct (Ascii.eqb_spec (RegExp.canonicalize "/") (RegExp.canonicalize x))
      as [Hc | Hc]; [| intros [v Hv]; discriminate].
    apply canonicalize_slash in Hc. subst x.
    destruct s as [| y s]; [reflexivity | intros [v Hv]; discriminate].
Qed.

Lemma isUrlMatch_fresh (re : RegExp.t) (path : string) :
  RegExp.lastIndex re = O ->
  (isUrlMatch re path).1 =
    bool_decide (is_Some (RegExp.search (RegExp.ignoreCase re) (RegExp.pattern re)
                            0 (list_ascii_of_string path))).
Proof.
  intros Hl. unfold isUrlMatch, RegExp.exec. rewrite Hl.
  replace (if RegExp.global re then O else O) with O by now destruct (RegExp.global re).
  cbn [Nat.ltb Nat.leb skipn].
  destruct (RegExp.search _ _ _ _) as [[b e] |]; reflexivity.
Qed.

Lemma root_matches_only_root (path : string) :
  (isUrlMatch root_pattern path).1 = true <-> path = "/".
Proof.
  split; [| intros ->; reflexivity].
  rewrite isUrlMatch_fresh by reflexivity.
  intros Hs. apply bool_decide_eq_true_1 in Hs.
  apply root_search_zero in Hs.
  destruct path as [| x [| y path]]; cbn in Hs; try discriminate.
  now injection Hs as ->.
Qed.

(** Why the rewind matters: the root pattern is global, so a bare [exec]
    moves [lastIndex] past the match and the next [exec] on the same path
    starts there, fails and only then returns to the start. *)
Lemma root_exec_without_rewind :
  exists re1,
    RegExp.exec root_pattern "/" = (Some (0, 1)%nat, re1)
    /\ RegExp.lastIndex re1 = 1%nat
    /\ RegExp.exec re1 "/" = (None, root_pattern).
Proof. eexists. repeat split. Qed.

(** C6: whatever exclusions are configured, in any run of requests against
    the list that [getExcludedRoutes] returns, every request whose path is
    [/] is excluded, whatever its method and whatever came before it in the
    run; the appended root pattern matches the path [/] and no other. *)
Theorem root_always_excluded (cfg : option (list RouteSpec)) (routes : list Route) :
  getExcludedRoutes cfg = Js.Normal routes ->
  (forall (reqs : list (string * string)) (i : nat) (method : string),
     reqs !! i = Some (method, "/") ->
     isExcluded_all routes reqs !! i = Some true)
  /\ (forall method, (isExcluded routes method "/").1 = true)
  /\ In (RRegExp root_pattern) routes
  /\ (forall path, (isUrlMatch root_pattern path).1 = true <-> path = "/").
Proof.
  intros Hget.
  destruct (getExcludedRoutes_inv cfg routes Hget) as (compiled & _ & ->).
  assert (In (RRegExp root_pattern) (compiled ++ [RRegExp root_pattern])) as Hin.
  { apply in_or_app. right. now left. }
  split; [| split; [| split]].
  - intros reqs i method Hi.
    now apply (stable_route_excludes (RRegExp root_pattern) method "/").
  - intros method.
    now apply (isExcluded_found (RRegExp root_pattern)).
  - exact Hin.
  - apply root_matches_only_root.
Qed.

(** *** Plain pattern sources *)

Lemma list_ascii_app (a b : string) :
  list_ascii_of_string (a +:+ b) = list_ascii_of_string a ++ list_ascii_of_string b.
Proof.
  induction a as [| c a IH]; [reflexivity |].
  change (list_ascii_of_string (String c a +:+ b))
    with (c :: list_ascii_of_string (a +:+ b)).
  rewrite IH. reflexivity.
Qed.

Lemma parse_plain_step (c : ascii) (rest : list ascii) (cur : RegExp.Frame)
    (outer : list RegExp.Frame) :
  plain_char c = true ->
  RegExp.parse (c :: rest) cur outer =
    RegExp.parse rest (RegExp.push (RegExp.mkTerm (atom c) true) cur) outer.
Proof.
  destruct c as [[] [] [] [] [] [] [] []]; intros Hp; vm_compute in Hp;
    first [discriminate Hp | reflexivity].
Qed.

Lemma parse_plain (cs : list ascii) (ts : list RegExp.Term) :
  forallb plain_char cs = true ->
  RegExp.parse cs (RegExp.mkFrame [] ts) [] =
    Some (RegExp.seq_of (rev (map (fun c => RegExp.mkTerm (atom c) true) cs) ++ ts)).
Proof.
  revert ts. induction cs as [| c cs IH]; intros ts Hp; [reflexivity |].
  cbn [forallb] in Hp. apply andb_true_iff in Hp as [Hc Hcs].
  rewrite parse_plain_step by assumption.
  unfold RegExp.push. cbn [RegExp.alts RegExp.terms].
  rewrite IH by assumption. cbn [map rev]. now rewrite <- app_assoc.
Qed.

Lemma seq_of_literal (cs : list ascii) :
  RegExp.seq_of (rev (map (fun c => RegExp.mkTerm (atom c) true) cs))
  = literal_pattern cs.
Proof.
  induction cs as [| c cs IH]; [reflexivity |].
  cbn [map rev]. unfold RegExp.seq_of in *. rewrite fold_left_app, IH.
  reflexivity.
Qed.

Lemma create_plain (s : string) :
  plain_source s = true -> RegExp.create s "i" = Some (literal_regexp s).
Proof.
  intros Hp. unfold RegExp.create, plain_source in *.
  rewrite parse_plain by assumption. rewrite app_nil_r, seq_of_literal.
  reflexivity.
Qed.

Lemma canonicalize_dot (x : ascii) :
  RegExp.canonicalize "." = RegExp.canonicalize x ->
  RegExp.line_terminator x = false.
Proof.
  destruct x as [[] [] [] [] [] [] [] []]; vm_compute; intros Hc;
    first [reflexivity | discriminate].
Qed.

Lemma run_atom (c x : ascii) (i : nat) (s : list ascii)
    (k : nat -> list ascii -> option nat) :
  RegExp.canonicalize c = RegExp.canonicalize x ->
  RegExp.run true (atom c) i (x :: s) k = k (S i) s.
Proof.
  intros Hc. unfold atom. destruct (Ascii.eqb_spec c ".") as [-> | Hne].
  - cbn [RegExp.run]. now rewrite (canonicalize_dot x Hc).
  - cbn [RegExp.run]. unfold RegExp.char_match. rewrite Hc.
    now rewrite Ascii.eqb_refl.
Qed.

Lemma run_literal (cs xs : list ascii) :
  Forall2 (fun c x => RegExp.canonicalize c = RegExp.canonicalize x) cs xs ->
  forall (i : nat) (rest : list ascii) (k : nat -> list ascii -> option nat),
    RegExp.run true (literal_pattern cs) i (xs ++ rest) k
    = k (i + length cs)%nat rest.
Proof.
  induction 1 as [| c x cs xs Hc _ IH]; intros i rest k.
  - cbn. now rewrite Nat.add_0_r.
  - cbn [literal_pattern fold_right RegExp.run app].
    rewrite run_atom by assumption.
    fold (literal_pattern cs). rewrite IH. cbn [length].
    now rewrite Nat.add_succ_r.
Qed.

Lemma search_found (r : RegExp.Pattern) (pre s : list ascii) :
  forall i : nat,
    is_Some (RegExp.run true r (i + length pre)%nat s (fun e _ => Some e)) ->
    is_Some (RegExp.search true r i (pre ++ s)).
Proof.
  induction pre as [| x pre IH]; intros i Hrun.
  - cbn [length app] in *. rewrite Nat.add_0_r in Hrun.
    rewrite search_unfold. destruct Hrun as [e ->]. eauto.
  - rewrite search_unfold. cbn [app].
    destruct (RegExp.run true r i (x :: pre ++ s) _) as [e |]; [eauto |].
    apply IH. cbn [length] in Hrun. now rewrite Nat.add_succ_r in Hrun.
Qed.

Lemma literal_regexp_matches (s path : string) (method : string) :
  contains path s ->
  (route_match (RRegExp (literal_regexp s)) method path).1 = true.
Proof.
  intros (pre & s' & post & -> & Hsame).
  cbn [route_match].
  pose proof (isUrlMatch_fresh (literal_regexp s) (pre +:+ s' +:+ post) eq_refl)
    as Hfresh.
  destruct (isUrlMatch (literal_regexp s) (pre +:+ s' +:+ post)) as [b re'].
  cbn in *. subst b. apply bool_decide_eq_true_2.
  rewrite !list_ascii_app. apply search_found.
  rewrite (run_literal _ _ Hsame). eauto.
Qed.

Lemma defaults_plain (s : string) :
  In (SString s) defaultExcludedRoutes -> plain_source s = true.
Proof.
  intros [[= <-] | [[= <-] | [[= <-] | [[= <-] | []]]]]; reflexivity.
Qed.

Lemma map_routes_compiles (l : list RouteSpec) (rs : list Route) (x : RouteSpec) :
  map_routes l = Js.Normal rs -> In x l ->
  exists r, compile_route x = Js.Normal r /\ In r rs.
Proof.
  revert rs. induction l as [| y l IH]; intros rs Hmap Hin; [destruct Hin |].
  cbn [map_routes] in Hmap.
  destruct (compile_route y) as [ry | e] eqn:Hy; [| discriminate].
  destruct (map_routes l) as [rs' | e]; [| discriminate].
  injection Hmap as <-.
  destruct Hin as [-> | Hin].
  - exists ry. split; [exact Hy | now left].
  - destruct (IH rs' eq_refl Hin) as (r & Hr & Hin'). exists r.
    split; [exact Hr | now right].
Qed.

Lemma create_i_flags (s : string) (re : RegExp.t) :
  RegExp.create s "i" = Some re ->
  RegExp.ignoreCase re = true /\ RegExp.global re = false
  /\ RegExp.lastIndex re = O
  /\ RegExp.parse (list_ascii_of_string s) (RegExp.mkFrame [] []) []
     = Some (RegExp.pattern re).
Proof.
  unfold RegExp.create.
  destruct (RegExp.parse (list_ascii_of_string s) (RegExp.mkFrame [] []) [])
    as [p |]; [| discriminate].
  cbn. intros [= <-]. repeat split.
Qed.

(** C10, as amended: when the exclusions compile, every plain-string
    exclusion (built-in or configured) is in the list as the pattern that
    [new RegExp(string, "i")] makes of it: the string is the source, the
    pattern is case-insensitive and not global, and nothing is added to
    it, in particular no anchor.  When the characters of the string have
    no syntactic role in a pattern other than [.], which covers the four
    built-in paths, that pattern is the unanchored pattern of its
    characters, and every request whose path contains the string anywhere,
    up to case, is excluded, whatever its method and wherever it stands in
    a run of requests.  That the exclusions compile says here that every
    configured string is a well-formed source of the pattern fragment of
    [RegExp]. *)
Theorem plain_string_excludes_substring (cfg : option (list RouteSpec))
    (routes : list Route) (s : string) :
  getExcludedRoutes cfg = Js.Normal routes ->
  In (SString s) (defaultExcludedRoutes ++ default [] cfg) ->
  (exists re,
     RegExp.create s "i" = Some re
     /\ In (RRegExp re) routes
     /\ RegExp.ignoreCase re = true /\ RegExp.global re = false
     /\ RegExp.lastIndex re = O
     /\ RegExp.parse (list_ascii_of_string s) (RegExp.mkFrame [] []) []
        = Some (RegExp.pattern re))
  /\ (plain_source s = true ->
      RegExp.create s "i" = Some (literal_regexp s)
      /\ In (RRegExp (literal_regexp s)) routes
      /\ (forall method path, contains path s ->
            (isExcluded routes method path).1 = true)
      /\ (forall (reqs : list (string * string)) (i : nat) method path,
            contains path s ->
            reqs !! i = Some (method, path) ->
            isExcluded_all routes reqs !! i = Some true))
  /\ (forall d, In (SString d) defaultExcludedRoutes -> plain_source d = true).
Proof.
  intros Hget Hin.
  destruct (getExcludedRoutes_inv cfg routes Hget) as (compiled & Hmap & ->).
  assert (exists re,
            RegExp.create s "i" = Some re
            /\ In (RRegExp re) (compiled ++ [RRegExp root_pattern])) as (re & Hre & Hr).
  { destruct (map_routes_compiles _ _ (SString s) Hmap
                (union_keeps_string s _ _ Hin)) as (r & Hc & Hr).
    cbn [compile_route] in Hc. unfold new_RegExp in Hc.
    destruct (RegExp.create s "i") as [re |]; [| discriminate].
    injection Hc as <-. exists re. split; [reflexivity |].
    apply in_or_app. now left. }
  split; [| split].
  - exists re. destruct (create_i_flags s re Hre) as (H1 & H2 & H3 & H4).
    repeat (split; [assumption |]). assumption.
  - intros Hp. rewrite (create_plain s Hp) in Hre. injection Hre as <-.
    split; [now apply create_plain | split; [exact Hr | split]].
    + intros method path Hc.
      apply (isExcluded_found (RRegExp (literal_regexp s))); [exact Hr |].
      now apply literal_regexp_matches.
    + intros reqs i method path Hc Hi.
      apply (stable_route_excludes (RRegExp (literal_regexp s)) method path);
        try assumption; [reflexivity |].
      now apply literal_regexp_matches.
  - apply defaults_plain.
Qed.

(** C10, as stated, fails: the configured string [/files/a+b] is compiled
    into a pattern in which [+] is a quantifier, and the request for the
    path [/files/a+b], which contains the string, is not excluded. *)
Lemma quantifier_string_not_substring :
  exists routes,
    getExcludedRoutes (Some [SString "/files/a+b"]) = Js.Normal routes
    /\ contains "/files/a+b" "/files/a+b"
    /\ (isExcluded routes "GET" "/files/a+b").1 = false.
Proof.
  eexists. split; [vm_compute; reflexivity |]. split.
  - exists "", "/files/a+b", "". split; [reflexivity |].
    unfold same_letters. cbn. repeat constructor.
  - vm_compute. reflexivity.
Qed.

End RoutesFacts.

(** ** The theorems on concrete inputs *)

Module Witnesses.

Import Promise Auth0 Props.

Lemma decode_throw_continues_witness :
  let inst := Demo.installed Demo.config_both in
  let req := Demo.request (Some "Bearer eyJ0eXAiOiJKV1QiLCJhbGciOiJIUzI1NiJ9.bm90IGpzb24.c2ln") in
  (Routes.isExcluded (excluded inst) (method req) (path req)).1 = false
  /\ Js.truthy (audience (config inst)) = true
  /\ Js.truthy (header_authorization req) = true
  /\ Demo.jwt_decode (bearer_token req)
     = DecodeThrows (Js.mkError "SyntaxError" "Unexpected token o in JSON at position 1")
  /\ (jwtAuthentication_unless Demo.jwt_decode inst req).1 =
       [Next (Some (Js.mkError "UnauthorizedError"
                      "SyntaxError: Unexpected token o in JSON at position 1"));
        CallV1 (Some (mkV1 (SecretString "s3cret!") (Some "client")))].
Proof.
  intros inst req.
  assert ((Routes.isExcluded (excluded inst) (method req) (path req)).1 = false) as Hx
    by (vm_compute; reflexivity).
  assert (Js.truthy (audience (config inst)) = true) as Ha by reflexivity.
  assert (Js.truthy (header_authorization req) = true) as Hh by reflexivity.
  assert (Demo.jwt_decode (bearer_token req)
          = DecodeThrows (Js.mkError "SyntaxError" "Unexpected token o in JSON at position 1"))
    as Hd by reflexivity.
  refine (conj Hx (conj Ha (conj Hh (conj Hd _)))).
  exact (SelectorFacts.decode_throw_continues Demo.jwt_decode inst req _ Hx Ha Hh Hd).
Defined.


Lemma undefined_verifier_called_witness :
  exists inst,
    module_exports (Some Demo.config_no_jwks) = Js.Normal (Some inst)
    /\ (Routes.isExcluded (excluded inst) "GET" "/api/orders").1 = false
    /\ (jwtAuthentication_unless Demo.jwt_decode inst
          (Demo.request (Some "Bearer eyJhbGciOiJSUzI1NiIsImtpZCI6ImtleS0xIn0.e30.c2ln"))).1 = [CallV2 None].
Proof.
  exact (proj1 (proj2 (SelectorFacts.undefined_verifier_called Demo.jwt_decode))
           "Bearer eyJhbGciOiJSUzI1NiIsImtpZCI6ImtleS0xIn0.e30.c2ln" eq_refl eq_refl).
Defined.

Lemma fetch_failure_is_fulfilled_witness :
  let err := Js.mkError "SigningKeyNotFoundError"
               "Unable to find a signing key that matches the kid" in
  let w' := mkWorld (store Demo.empty_world)
              (io Demo.empty_world ++ miss_io (Some "https://jwks") "key-9") in
  cache_get ("kid" +:+ "key-9") (store Demo.empty_world) = Fulfilled None
  /\ Js.truthy None = false
  /\ Demo.getSigningKey "https://jwks" "key-9" = Rejected err
  /\ getAuthPublicKey Demo.getSigningKey (Some "https://jwks") "key-9" Demo.empty_world
     = (Fulfilled (KError err), w')
  /\ v2JwtCheck_secret Demo.getSigningKey (Some "https://jwks")
       (Some (mkHeader (Some "RS256") (Some "key-9"))) Demo.empty_world
     = (Fulfilled (DoneKey (KError err)), w').
Proof.
  intros err w'.
  assert (cache_get ("kid" +:+ "key-9") (store Demo.empty_world) = Fulfilled None)
    as Hget by reflexivity.
  assert (Demo.getSigningKey "https://jwks" "key-9" = Rejected err) as Hf
    by reflexivity.
  pose proof (ResolverFacts.fetch_failure_is_fulfilled Demo.getSigningKey
                (Some "https://jwks") "key-9" Demo.empty_world None err
                Hget eq_refl Hf) as [H1 H2].
  refine (conj Hget (conj eq_refl (conj Hf (conj H1 _)))).
  exact (H2 (Some "RS256") eq_refl).
Defined.

Lemma fetch_success_caches_key_witness :
  let key := mkSigningKey None (Some "RSA-2") in
  let c' : gmap string (string * Z) := {[ "kidkey-2" := ("UlNBLTI=", 36000%Z) ]} in
  cache_get ("kid" +:+ "key-2") (store Demo.empty_world) = Fulfilled None
  /\ Demo.getSigningKey "https://jwks" "key-2" = Fulfilled key
  /\ Js.truthy (publicKey key) = false /\ rsaPublicKey key = Some "RSA-2"
  /\ cache_set ("kid" +:+ "key-2") (Buffer.to_base64 (Buffer.from_string "RSA-2"))
       36000 (store Demo.empty_world) = (Fulfilled tt, c')
  /\ getAuthPublicKey Demo.getSigningKey (Some "https://jwks") "key-2" Demo.empty_world
     = (Fulfilled (KBuffer (Buffer.from_string "RSA-2")),
        mkWorld c'
          (io Demo.empty_world ++ miss_io (Some "https://jwks") "key-2"
             ++ [IoCacheSet ("kid" +:+ "key-2")
                   (Buffer.to_base64 (Buffer.from_string "RSA-2")) 36000])).
Proof.
  intros key c'.
  assert (cache_get ("kid" +:+ "key-2") (store Demo.empty_world) = Fulfilled None)
    as Hget by reflexivity.
  assert (Demo.getSigningKey "https://jwks" "key-2" = Fulfilled key) as Hf
    by reflexivity.
  assert (cache_set ("kid" +:+ "key-2") (Buffer.to_base64 (Buffer.from_string "RSA-2"))
            36000 (store Demo.empty_world) = (Fulfilled tt, c')) as Hset
    by reflexivity.
  refine (conj Hget (conj Hf (conj eq_refl (conj eq_refl (conj Hset _))))).
  exact (ResolverFacts.fetch_success_caches_key Demo.getSigningKey
           (Some "https://jwks") "key-2" Demo.empty_world None key "RSA-2" c'
           Hget eq_refl Hf (or_intror (conj eq_refl eq_refl)) Hset).
Defined.

Lemma cache_hit_decodes_witness :
  cache_get ("kid" +:+ "key-1") (store Demo.warm_world) = Fulfilled (Some "UEVNLTE=")
  /\ getAuthPublicKey Demo.getSigningKey (Some "https://jwks") "key-1" Demo.warm_world
     = (Fulfilled (KBuffer (Buffer.from_base64 "UEVNLTE=")),
        mkWorld (store Demo.warm_world)
          (io Demo.warm_world ++ [IoCacheGet ("kid" +:+ "key-1")])).
Proof.
  assert (cache_get ("kid" +:+ "key-1") (store Demo.warm_world)
          = Fulfilled (Some "UEVNLTE=")) as Hget by (vm_compute; reflexivity).
  split; [exact Hget |].
  apply (ResolverFacts.cache_hit_decodes Demo.getSigningKey
           (Some "https://jwks") "key-1" Demo.warm_world "UEVNLTE=" Hget).
  discriminate.
Defined.

Lemma id_token_set_iff_witness :
  let req := Demo.verified_request (Some "Bearer abc.def.ghi") in
  user req = Some {[ "sub" := Js.VStr "user-1" ]}
  /\ header_authorization req = Some ("Bearer " +:+ "abc.def.ghi")
  /\ no_space "abc.def.ghi"
  /\ id_token_middleware req =
       Js.Normal (with_id_token req {[ "sub" := Js.VStr "user-1" ]}
                    (Js.VStr "abc.def.ghi")).
Proof.
  intros req.
  assert (no_space "abc.def.ghi") as Hs.
  { unfold no_space. cbn. repeat constructor; discriminate. }
  refine (conj eq_refl (conj eq_refl (conj Hs _))).
  exact (proj1 (proj2 (proj2 (proj2 (IdentityFacts.id_token_set_iff req))))
           {[ "sub" := Js.VStr "user-1" ]} "abc.def.ghi" eq_refl eq_refl Hs).
Defined.

Lemma root_always_excluded_witness :
  let cfg := Some [Routes.SString "/public"] in
  Routes.getExcludedRoutes cfg = Js.Normal (Demo.compiled cfg)
  /\ Routes.isExcluded_all (Demo.compiled cfg)
       [("GET", "/"); ("POST", "/api/orders"); ("DELETE", "/"); ("GET", "/")] !! 3%nat
     = Some true.
Proof.
  intros cfg.
  assert (Routes.getExcludedRoutes cfg = Js.Normal (Demo.compiled cfg)) as Hget
    by (vm_compute; reflexivity).
  split; [exact Hget |].
  exact (proj1 (RoutesFacts.root_always_excluded cfg (Demo.compiled cfg) Hget)
           [("GET", "/"); ("POST", "/api/orders"); ("DELETE", "/"); ("GET", "/")]
           3%nat "GET" eq_refl).
Defined.

Lemma plain_string_excludes_substring_witness :
  let cfg := Some [Routes.SString "/public"] in
  Routes.getExcludedRoutes cfg = Js.Normal (Demo.compiled cfg)
  /\ In (Routes.SString "/public") (Routes.defaultExcludedRoutes ++ default [] cfg)
  /\ plain_source "/public" = true
  /\ contains "/v2/Public/logo.png" "/public"
  /\ (Routes.isExcluded (Demo.compiled cfg) "GET" "/v2/Public/logo.png").1 = true.
Proof.
  intros cfg.
  assert (Routes.getExcludedRoutes cfg = Js.Normal (Demo.compiled cfg)) as Hget
    by (vm_compute; reflexivity).
  assert (In (Routes.SString "/public")
            (Routes.defaultExcludedRoutes ++ default [] cfg)) as Hin.
  { cbn. do 4 right. left. reflexivity. }
  assert (contains "/v2/Public/logo.png" "/public") as Hc.
  { exists "/v2", "/Public", "/logo.png". split; [reflexivity |].
    unfold same_letters. cbn. repeat constructor. }
  refine (conj Hget (conj Hin (conj eq_refl (conj Hc _)))).
  exact (proj1 (proj2 (proj2
           (proj1 (proj2 (RoutesFacts.plain_string_excludes_substring cfg
                            (Demo.compiled cfg) "/public" Hget Hin)) eq_refl)))
           "GET" "/v2/Public/logo.png" Hc).
Defined.

End Witnesses.

(** ** Initialisation *)

Module SetupFacts.

Import Promise Auth0 Props MoreProps.

Lemma module_exports_inv (cfg : Config) (inst : Installed) :
  module_exports (Some cfg) = Js.Normal (Some inst) ->
  Routes.getExcludedRoutes (excludedRoutes cfg) = Js.Normal (excluded inst)
  /\ config inst =
       mkConfig (secret cfg) (Some (default true (enableV1 cfg))) (clientId cfg)
         (audience cfg) (domain cfg) (jwksUrl cfg) (excludedRoutes cfg)
  /\ v1JwtCheck inst =
       (if Js.truthy (secret cfg) && default true (enableV1 cfg) then
          Some (mkV1 (if BASE64_REGEX (Js.to_string (secret cfg))
                      then SecretBuffer (Buffer.from_base64 (Js.to_string (secret cfg)))
                      else SecretString (Js.to_string (secret cfg)))
                  (clientId cfg))
        else None)
  /\ v2JwtCheck inst =
       (if Js.truthy (audience cfg) && Js.truthy (jwksUrl cfg) then
          Some (mkV2 (jwksUrl cfg) (audience cfg)
                  ("https://" +:+ Js.to_string (domain cfg) +:+ "/") ["RS256"])
        else None).
Proof.
  unfold module_exports. cbn [secret audience jwksUrl clientId domain excludedRoutes].
  destruct (Routes.getExcludedRoutes _) as [paths | e]; [| discriminate].
  intros [= <-]. repeat split.
Qed.

(** *** The shared secret *)

Lemma BASE64_REGEX_shape (n : nat) (l : list ascii) :
  (length l <= n)%nat ->
  BASE64_REGEX_chars l = true ->
  (exists k, length l = (4 * k)%nat) /\ forallb base64url_or_pad l = true.
Proof.
  revert l. induction n as [| n IH]; intros l Hlen Hre.
  - destruct l; [| cbn in Hlen; lia]. split; [exists O; reflexivity | reflexivity].
  - destruct l as [| a [| b [| c [| d rest]]]]; try discriminate Hre.
    + split; [exists O; reflexivity | reflexivity].
    + cbn [BASE64_REGEX_chars] in Hre. unfold base64url_or_pad.
      destruct (base64url_char a) eqn:Ha, (base64url_char b) eqn:Hb,
        (base64url_char c) eqn:Hc, (base64url_char d) eqn:Hd;
        cbn [andb] in Hre.
      1:{ destruct (IH rest ltac:(cbn [length] in Hlen; lia) Hre) as [[k Hk] Hall].
          split.
          - exists (S k). cbn [length]. lia.
          - cbn [forallb]. rewrite Ha, Hb, Hc, Hd. exact Hall. }
      all: destruct rest; [| discriminate Hre];
        try discriminate Hre;
        (split; [exists 1%nat; reflexivity |]);
        cbn [forallb]; rewrite ?Ha, ?Hb, ?Hc, ?Hd; cbn [orb andb] in *;
        repeat match goal with
               | H : _ && _ = true |- _ => apply andb_true_iff in H as [? ?]
               | H : _ || _ = true |- _ => cbn [orb] in H
               end;
        repeat match goal with
               | H : Ascii.eqb ?x ?y = true |- _ => rewrite H
               end;
        rewrite ?orb_true_r; reflexivity.
Qed.

Lemma BASE64_REGEX_class (k : nat) (l : list ascii) :
  length l = (4 * k)%nat ->
  forallb base64url_char l = true ->
  BASE64_REGEX_chars l = true.
Proof.
  revert l. induction k as [| k IH]; intros l Hlen Hall.
  - destruct l; [reflexivity | discriminate].
  - destruct l as [| a [| b [| c [| d rest]]]]; cbn [length] in Hlen; try lia.
    cbn [forallb] in Hall. cbn [BASE64_REGEX_chars].
    repeat (apply andb_true_iff in Hall as [? Hall]).
    repeat match goal with H : base64url_char _ = true |- _ => rewrite H; clear H end.
    cbn [andb]. apply IH; [lia | assumption].
Qed.

Lemma string_length_list (s : string) :
  String.length s = length (list_ascii_of_string s).
Proof. induction s as [| c s IH]; [reflexivity |]. cbn. now rewrite IH. Qed.

Lemma legacy_secret (cfg : Config) (inst : Installed) (s : string) :
  module_exports (Some cfg) = Js.Normal (Some inst) ->
  secret cfg = Some s -> s <> "" -> enableV1 cfg <> Some false ->
  v1JwtCheck inst =
    Some (mkV1 (if BASE64_REGEX s then SecretBuffer (Buffer.from_base64 s)
                else SecretString s) (clientId cfg)).
Proof.
  intros Hinit Hs Hne He.
  destruct (module_exports_inv cfg inst Hinit) as (_ & _ & -> & _).
  rewrite Hs. rewrite (ResolverFacts.truthy_nonempty s Hne).
  destruct (enableV1 cfg) as [[] |]; try congruence; reflexivity.
Qed.

(** X2: a configured secret whose length is not a multiple of four, or
    that has a character outside [[A-Za-z0-9-_=]] (such as the [+] and [/]
    of standard base64), is not decoded: the legacy verifier is built with
    the text itself as its secret. *)
Theorem irregular_secret_used_raw (cfg : Config) (inst : Installed) (s : string) :
  module_exports (Some cfg) = Js.Normal (Some inst) ->
  secret cfg = Some s ->
  enableV1 cfg <> Some false ->
  (forall k, String.length s <> (4 * k)%nat)
  \/ (exists c, In c (list_ascii_of_string s) /\ base64url_or_pad c = false) ->
  v1JwtCheck inst = Some (mkV1 (SecretString s) (clientId cfg)).
Proof.
  intros Hinit Hs He Hirr.
  assert (BASE64_REGEX s = false) as Hre.
  { destruct (BASE64_REGEX s) eqn:Hre; [exfalso | reflexivity].
    destruct (BASE64_REGEX_shape _ _ (Nat.le_refl _) Hre) as [[k Hk] Hall].
    destruct Hirr as [Hlen | (c & Hin & Hc)].
    - apply (Hlen k). now rewrite string_length_list.
    - pose proof (proj1 (forallb_forall _ _) Hall c Hin). congruence. }
  assert (s <> "") as Hne.
  { intros ->. destruct Hirr as [Hlen | (c & [] & _)]. now apply (Hlen O). }
  rewrite (legacy_secret cfg inst s Hinit Hs Hne He), Hre. reflexivity.
Qed.

(** X3: a configured secret made only of characters of [[A-Za-z0-9-_]]
    whose length is a positive multiple of four is taken for base64 and
    decoded, whether or not it was meant as plain text. *)
Theorem regular_secret_decoded (cfg : Config) (inst : Installed) (s : string)
    (k : nat) :
  module_exports (Some cfg) = Js.Normal (Some inst) ->
  secret cfg = Some s ->
  enableV1 cfg <> Some false ->
  String.length s = (4 * S k)%nat ->
  forallb base64url_char (list_ascii_of_string s) = true ->
  v1JwtCheck inst = Some (mkV1 (SecretBuffer (Buffer.from_base64 s)) (clientId cfg)).
Proof.
  intros Hinit Hs He Hlen Hall.
  assert (s <> "") as Hne by (intros ->; discriminate).
  rewrite (legacy_secret cfg inst s Hinit Hs Hne He).
  unfold BASE64_REGEX.
  rewrite (BASE64_REGEX_class (S k)); [reflexivity | | assumption].
  now rewrite <- string_length_list.
Qed.

Lemma digit_class (i : N) :
  i < 64 ->
  base64url_char (Buffer.b64_char i) = negb (plus_or_slash (Buffer.b64_char i)).
Proof.
  intros Hi. apply Bool.eqb_prop.
  exact (Base64Facts.below_spec 64
           (fun i => Bool.eqb (base64url_char (Buffer.b64_char i))
                       (negb (plus_or_slash (Buffer.b64_char i))))
           ltac:(vm_compute; reflexivity) i Hi).
Qed.

Lemma BASE64_REGEX_to_base64 (n : nat) (bs : Buffer.t) :
  (length bs <= n)%nat ->
  BASE64_REGEX_chars (list_ascii_of_string (Buffer.to_base64 bs))
  = no_plus_or_slash (Buffer.to_base64 bs).
Proof.
  unfold no_plus_or_slash.
  revert bs. induction n as [| n IH]; intros bs Hlen.
  - destruct bs; [reflexivity | cbn in Hlen; lia].
  - destruct bs as [| a [| b [| c rest]]]; [reflexivity | | |].
    + pose proof (Base64Facts.byte_bounded a) as Ha.
      destruct (Base64Facts.sextet_bounds (Byte.to_N a) 0 0 Ha
                  ltac:(lia) ltac:(lia)) as (H1 & H2 & _).
      cbn [Buffer.to_base64 list_ascii_of_string BASE64_REGEX_chars forallb].
      rewrite <- !digit_class by assumption.
      destruct (base64url_char (Buffer.b64_char (Buffer.sextet1 (Byte.to_N a)))),
        (base64url_char (Buffer.b64_char (Buffer.sextet2 (Byte.to_N a) 0)));
        reflexivity.
    + pose proof (Base64Facts.byte_bounded a) as Ha.
      pose proof (Base64Facts.byte_bounded b) as Hb.
      destruct (Base64Facts.sextet_bounds (Byte.to_N a) (Byte.to_N b) 0 Ha Hb
                  ltac:(lia)) as (H1 & H2 & H3 & _).
      cbn [Buffer.to_base64 list_ascii_of_string BASE64_REGEX_chars forallb].
      rewrite <- !digit_class by assumption.
      rewrite (proj2 (Base64Facts.digit_read_back _ H3)).
      destruct (base64url_char (Buffer.b64_char (Buffer.sextet1 (Byte.to_N a)))),
        (base64url_char (Buffer.b64_char (Buffer.sextet2 (Byte.to_N a) (Byte.to_N b)))),
        (base64url_char (Buffer.b64_char (Buffer.sextet3 (Byte.to_N b) 0)));
        reflexivity.
    + pose proof (Base64Facts.byte_bounded a) as Ha.
      pose proof (Base64Facts.byte_bounded b) as Hb.
      pose proof (Base64Facts.byte_bounded c) as Hc.
      destruct (Base64Facts.sextet_bounds (Byte.to_N a) (Byte.to_N b) (Byte.to_N c)
                  Ha Hb Hc) as (H1 & H2 & H3 & H4).
      cbn [Buffer.to_base64 list_ascii_of_string BASE64_REGEX_chars forallb].
      rewrite <- !digit_class by assumption.
      rewrite (proj2 (Base64Facts.digit_read_back _ H4)).
      rewrite IH by (cbn [length] in Hlen; lia).
      destruct (base64url_char (Buffer.b64_char (Buffer.sextet1 (Byte.to_N a)))),
        (base64url_char (Buffer.b64_char (Buffer.sextet2 (Byte.to_N a) (Byte.to_N b)))),
        (base64url_char (Buffer.b64_char (Buffer.sextet3 (Byte.to_N b) (Byte.to_N c)))),
        (base64url_char (Buffer.b64_char (Buffer.sextet4 (Byte.to_N c))));
        cbn [andb]; try reflexivity;
        destruct (list_ascii_of_string (Buffer.to_base64 rest)); reflexivity.
Qed.

(** X4: when the configured secret is the standard base64 text of some
    bytes, the legacy verifier gets those bytes back as its secret if the
    text has no [+] and no [/]; if it has one, the text itself is used as
    the secret. *)
Theorem base64_secret_decoded_unless_plus_or_slash (cfg : Config)
    (inst : Installed) (bs : Buffer.t) :
  module_exports (Some cfg) = Js.Normal (Some inst) ->
  secret cfg = Some (Buffer.to_base64 bs) ->
  bs <> [] ->
  enableV1 cfg <> Some false ->
  v1JwtCheck inst =
    Some (mkV1 (if no_plus_or_slash (Buffer.to_base64 bs) then SecretBuffer bs
                else SecretString (Buffer.to_base64 bs))
            (clientId cfg)).
Proof.
  intros Hinit Hs Hbs He.
  assert (Buffer.to_base64 bs <> "") as Hne.
  { intros Hempty. pose proof (Base64Facts.to_base64_truthy bs Hbs) as Ht.
    rewrite Hempty in Ht. discriminate. }
  rewrite (legacy_secret cfg inst _ Hinit Hs Hne He).
  unfold BASE64_REGEX.
  rewrite (BASE64_REGEX_to_base64 _ bs (Nat.le_refl _)).
  now rewrite Base64Facts.from_base64_to_base64.
Qed.

End SetupFacts.

(** ** More on scheme selection *)

Module SelectorMore.

Import Promise Auth0 Props MoreProps.

Lemma split_scheme (scheme rest : string) :
  no_space scheme ->
  Js.split " " (scheme +:+ " " +:+ rest) = scheme :: Js.split " " rest.
Proof.
  unfold no_space. induction scheme as [| c scheme IH]; intros Hs; [reflexivity |].
  cbn in Hs. apply Forall_cons in Hs as [Hc Hs].
  change (String c scheme +:+ " " +:+ rest)
    with (String c (scheme +:+ " " +:+ rest)).
  cbn [Js.split]. destruct (Ascii.eqb_spec c " "); [congruence |].
  rewrite IH by assumption. reflexivity.
Qed.

Lemma scheme_header_truthy (scheme rest : string) :
  Js.truthy (Some (scheme +:+ " " +:+ rest)) = true.
Proof. destruct scheme; reflexivity. Qed.

Section Selector.

Variable jwt_decode : option string -> DecodeOutcome.

(** X5: a run of the selector is either the single call of the modern
    verifier, or at most one tagged rejection followed by the call of the
    legacy verifier or by the "not supported" rejection.  So it never calls
    both verifiers, a verifier call is always its last action, and it never
    passes the request on with a plain [next()]. *)
Theorem selector_run_discipline (inst : Installed) (req : Request) :
  (jwtAuthentication jwt_decode inst req = [CallV2 (v2JwtCheck inst)]
   \/ exists pre,
        Forall is_rejection pre /\ (length pre <= 1)%nat
        /\ (jwtAuthentication jwt_decode inst req = pre ++ [CallV1 (v1JwtCheck inst)]
            \/ jwtAuthentication jwt_decode inst req = pre ++ [Next (Some unsupported)]))
  /\ ~ In (Next None) (jwtAuthentication jwt_decode inst req)
  /\ ~ (invokes_modern (jwtAuthentication jwt_decode inst req)
        /\ invokes_legacy (jwtAuthentication jwt_decode inst req)).
Proof.
  assert (legacy_or_reject inst = [CallV1 (v1JwtCheck inst)]
          \/ legacy_or_reject inst = [Next (Some unsupported)]) as Hl.
  { unfold legacy_or_reject. destruct (default false _); auto. }
  destruct (SelectorFacts.jwtAuthentication_shape jwt_decode inst req)
    as [[_ ->] | [_ [-> | (err & _ & ->)]]].
  - split; [now left | split].
    + intros [Hin | []]. discriminate.
    + intros [_ [fn [Hin | []]]]. discriminate.
  - split; [| split].
    + right. exists []. split; [constructor | split; [cbn; lia |]].
      destruct Hl as [-> | ->]; auto.
    + destruct Hl as [-> | ->]; intros [Hin | []]; discriminate.
    + intros [[fn Hin] _].
      destruct Hl as [Heq | Heq]; rewrite Heq in Hin;
        destruct Hin as [Hin | []]; discriminate.
  - split; [| split].
    + right. exists [Next (Some (Js.mkError ERROR_NAME (Js.Error_toString err)))].
      split; [| split; [cbn; lia |]].
      * constructor; [| constructor]. eexists. split; reflexivity.
      * destruct Hl as [-> | ->]; auto.
    + destruct Hl as [-> | ->]; intros [Hin | [Hin | []]]; discriminate.
    + intros [[fn Hin] _].
      destruct Hl as [Heq | Heq]; rewrite Heq in Hin;
        destruct Hin as [Hin | [Hin | []]]; discriminate.
Qed.

(** X6: the selector does not look at the scheme word of the Authorization
    header: two requests whose headers carry the same text after the first
    space are treated alike, whatever their scheme words, methods, paths
    and identities ([Basic <token>] like [Bearer <token>]). *)
Theorem scheme_word_ignored (inst : Installed) (req req' : Request)
    (scheme scheme' rest : string) :
  no_space scheme -> no_space scheme' ->
  header_authorization req = Some (scheme +:+ " " +:+ rest) ->
  header_authorization req' = Some (scheme' +:+ " " +:+ rest) ->
  jwtAuthentication jwt_decode inst req = jwtAuthentication jwt_decode inst req'.
Proof.
  intros Hs Hs' Hh Hh'. unfold jwtAuthentication.
  rewrite Hh, Hh', !scheme_header_truthy. cbn [Js.to_string].
  rewrite !split_scheme by assumption. reflexivity.
Qed.

(** X7: when initialisation built neither verifier (no secret or legacy
    disabled, and no audience or no key-set URL), no request is ever handed
    to a verifier: every action of every run is a tagged rejection or the
    call of an undefined variable. *)
Theorem no_verifier_no_verification (cfg : Config) (inst : Installed)
    (req : Request) :
  module_exports (Some cfg) = Js.Normal (Some inst) ->
  Js.truthy (secret cfg) = false \/ enableV1 cfg = Some false ->
  Js.truthy (audience cfg) = false \/ Js.truthy (jwksUrl cfg) = false ->
  Forall (fun a => (is_rejection a \/ raises_type_error a) /\ ~ hands_to_verifier a)
    (jwtAuthentication jwt_decode inst req).
Proof.
  intros Hinit H1 H2.
  destruct (SetupFacts.module_exports_inv cfg inst Hinit) as (_ & _ & Hv1 & Hv2).
  assert (v1JwtCheck inst = None) as Hn1.
  { rewrite Hv1. destruct H1 as [-> | ->]; [reflexivity |].
    now rewrite andb_false_r. }
  assert (v2JwtCheck inst = None) as Hn2.
  { rewrite Hv2. destruct H2 as [-> | ->]; [reflexivity |].
    now rewrite andb_false_r. }
  assert (forall e, Js.name e = ERROR_NAME ->
            (is_rejection (Next (Some e)) \/ raises_type_error (Next (Some e)))
            /\ ~ hands_to_verifier (Next (Some e))) as Hrej.
  { intros e He. split; [left; exists e; auto |].
    intros [[v Hv] | [v Hv]]; discriminate. }
  assert ((is_rejection (CallV1 None) \/ raises_type_error (CallV1 None))
          /\ ~ hands_to_verifier (CallV1 None)) as Hc1.
  { split; [right; eexists; split; reflexivity |].
    intros [[v Hv] | [v Hv]]; discriminate. }
  assert ((is_rejection (CallV2 None) \/ raises_type_error (CallV2 None))
          /\ ~ hands_to_verifier (CallV2 None)) as Hc2.
  { split; [right; eexists; split; reflexivity |].
    intros [[v Hv] | [v Hv]]; discriminate. }
  assert (Forall (fun a => (is_rejection a \/ raises_type_error a)
                           /\ ~ hands_to_verifier a) (legacy_or_reject inst)) as Hl.
  { unfold legacy_or_reject. rewrite Hn1.
    destruct (default false _); (constructor; [| constructor]);
      [exact Hc1 | now apply Hrej]. }
  destruct (SelectorFacts.jwtAuthentication_shape jwt_decode inst req)
    as [[_ ->] | [_ [-> | (err & _ & ->)]]].
  - rewrite Hn2. constructor; [exact Hc2 | constructor].
  - exact Hl.
  - constructor; [now apply Hrej | exact Hl].
Qed.

(** X21: a scheme that is switched off is never used.  With [enableV1]
    false no legacy verifier is built and no run calls one, even when a
    secret is configured; without an audience no run calls the modern
    verifier and the token is not decoded at all, so the run is the same
    whatever decoding would have given. *)
Theorem disabled_scheme_never_used (cfg : Config) (inst : Installed)
    (req : Request) :
  module_exports (Some cfg) = Js.Normal (Some inst) ->
  (enableV1 cfg = Some false ->
     v1JwtCheck inst = None
     /\ ~ invokes_legacy (jwtAuthentication jwt_decode inst req))
  /\ (Js.truthy (audience cfg) = false ->
      ~ invokes_modern (jwtAuthentication jwt_decode inst req)
      /\ forall other : option string -> DecodeOutcome,
           jwtAuthentication other inst req = jwtAuthentication jwt_decode inst req).
Proof.
  intros Hinit.
  destruct (SetupFacts.module_exports_inv cfg inst Hinit) as (_ & Hcfg & Hv1 & _).
  split.
  - intros He. split.
    + rewrite Hv1, He. now rewrite andb_false_r.
    + assert (legacy_or_reject inst = [Next (Some unsupported)]) as Hl.
      { unfold legacy_or_reject. rewrite Hcfg. cbn [enableV1]. now rewrite He. }
      intros [fn Hin].
      destruct (SelectorFacts.jwtAuthentication_shape jwt_decode inst req)
        as [[_ Heq] | [_ [Heq | (err & _ & Heq)]]]; rewrite Heq, ?Hl in Hin;
        repeat (destruct Hin as [Hin | Hin]; [discriminate |]); destruct Hin.
  - intros Ha.
    assert (forall d, jwtAuthentication d inst req = legacy_or_reject inst) as Hall.
    { intros d. unfold jwtAuthentication. rewrite Hcfg. cbn [audience].
      now rewrite Ha. }
    split.
    + rewrite Hall. apply SelectorFacts.legacy_or_reject_not_modern.
    + intros other. now rewrite !Hall.
Qed.

End Selector.

End SelectorMore.

(** ** More on key resolution *)

Module ResolverMore.

Import Promise Auth0 Props MoreProps.

Section Resolver.

Context {C : Type} `{Cache C}.
Variable getSigningKey : string -> string -> Settled SigningKey.

Lemma getAuthPublicKey_rejected_get (jwksUrl : option string) (kid : string)
    (w : World C) (e : Js.Error) :
  cache_get ("kid" +:+ kid) (store w) = Rejected e ->
  getAuthPublicKey getSigningKey jwksUrl kid w =
    (Rejected e, mkWorld (store w) (io w ++ [IoCacheGet ("kid" +:+ kid)])).
Proof.
  intros Hget. unfold getAuthPublicKey, then_, cache_get_p.
  cbn [store io]. rewrite Hget. reflexivity.
Qed.

Lemma getAuthPublicKey_hit_any (jwksUrl : option string) (kid : string)
    (w : World C) (data : option string) :
  cache_get ("kid" +:+ kid) (store w) = Fulfilled data ->
  Js.truthy data = true ->
  getAuthPublicKey getSigningKey jwksUrl kid w =
    (Fulfilled (KBuffer (Buffer.from_base64 (Js.to_string data))),
     mkWorld (store w) (io w ++ [IoCacheGet ("kid" +:+ kid)])).
Proof.
  intros Hget Ht. unfold getAuthPublicKey, then_, cache_get_p, resolve.
  cbn [store io]. rewrite Hget, Ht. reflexivity.
Qed.

(** X9: the resolver rejects in exactly three situations: the cache lookup
    rejects; or, after a miss and a successful fetch, the key has neither a
    general nor an RSA public key (a TypeError); or, after a miss and a
    successful fetch, the cache write rejects.  The reason is the cache's
    error in the first and third case.  In particular a failed fetch never
    makes it reject. *)
Theorem resolver_rejects_iff (jwksUrl : option string) (kid : string)
    (w : World C) (e : Js.Error) :
  (getAuthPublicKey getSigningKey jwksUrl kid w).1 = Rejected e
  <-> cache_get ("kid" +:+ kid) (store w) = Rejected e
      \/ (exists data key,
            cache_get ("kid" +:+ kid) (store w) = Fulfilled data
            /\ Js.truthy data = false
            /\ getSigningKey (Js.to_string jwksUrl) kid = Fulfilled key
            /\ (Js.or_else (publicKey key) (rsaPublicKey key) = None
                /\ e = missing_key_error
                \/ exists sk,
                     Js.or_else (publicKey key) (rsaPublicKey key) = Some sk
                     /\ (cache_set ("kid" +:+ kid)
                           (Buffer.to_base64 (Buffer.from_string sk)) 36000
                           (store w)).1 = Rejected e)).
Proof.
  destruct (cache_get ("kid" +:+ kid) (store w)) as [data | e0] eqn:Hget.
  2:{ rewrite (getAuthPublicKey_rejected_get jwksUrl kid w e0 Hget). cbn [fst].
      split.
      - intros [= ->]. now left.
      - intros [[= ->] | (data & key & Hd & _)]; [reflexivity | discriminate]. }
  destruct (Js.truthy data) eqn:Ht.
  { rewrite (getAuthPublicKey_hit_any jwksUrl kid w data Hget Ht). cbn [fst].
    split; [discriminate |].
    intros [Hd | (data' & key & [= <-] & Ht' & _)]; [discriminate | congruence]. }
  rewrite (ResolverFacts.getAuthPublicKey_miss getSigningKey jwksUrl kid w data Hget Ht).
  destruct (getSigningKey (Js.to_string jwksUrl) kid) as [key | err] eqn:Hf.
  2:{ cbn [fst]. split; [discriminate |].
      intros [Hd | (data' & key & _ & _ & Hk & _)]; discriminate. }
  destruct (Js.or_else (publicKey key) (rsaPublicKey key)) as [sk |] eqn:Hsel.
  - cbn zeta.
    destruct (cache_set _ _ _ _) as [[[] | e1] c1] eqn:Hset; cbn [fst]; split.
    + discriminate.
    + intros [Hd | (data' & key' & _ & _ & [= <-] & [[Hn _] | (sk' & Hs & Hr)])];
        [discriminate | congruence |].
      rewrite Hsel in Hs. injection Hs as <-. rewrite Hset in Hr. discriminate.
    + intros [= ->]. right. exists data, key. repeat split; try assumption.
      right. exists sk. split; [exact Hsel |]. now rewrite Hset.
    + intros [Hd | (data' & key' & _ & _ & [= <-] & [[Hn _] | (sk' & Hs & Hr)])];
        [discriminate | congruence |].
      rewrite Hsel in Hs. injection Hs as <-. rewrite Hset in Hr.
      cbn in Hr. congruence.
  - cbn [fst]. split.
    + intros [= <-]. right. exists data, key. repeat split; try assumption.
      left. split; [exact Hsel | reflexivity].
    + intros [Hd | (data' & key' & _ & _ & [= <-] & [[_ Hn] | (sk' & Hs & _)])];
        [discriminate | | congruence].
      now subst e.
Qed.

(** X10: what one resolution touches.  It always starts with the one
    lookup of ["kid" + keyId].  After that it either does nothing more (and
    the cache is as before); or it creates one key-set client and makes one
    fetch without writing (and the cache is as before, and no key is
    returned); or it also makes exactly one write, under ["kid" + keyId]
    with TTL 36000, of a text that decodes to the very bytes it returns
    when it is fulfilled. *)
Theorem resolver_footprint (jwksUrl : option string) (kid : string) (w : World C) :
  let r := (getAuthPublicKey getSigningKey jwksUrl kid w).1 in
  let w' := (getAuthPublicKey getSigningKey jwksUrl kid w).2 in
  (io w' = io w ++ [IoCacheGet ("kid" +:+ kid)] /\ store w' = store w)
  \/ (io w' = io w ++ miss_io jwksUrl kid /\ store w' = store w
      /\ forall bs, r <> Fulfilled (KBuffer bs))
  \/ (exists v,
        io w' = io w ++ miss_io jwksUrl kid ++ [IoCacheSet ("kid" +:+ kid) v 36000]
        /\ store w' = (cache_set ("kid" +:+ kid) v 36000 (store w)).2
        /\ forall k, r = Fulfilled k -> k = KBuffer (Buffer.from_base64 v)).
Proof.
  cbv zeta.
  destruct (cache_get ("kid" +:+ kid) (store w)) as [data | e0] eqn:Hget.
  2:{ rewrite (getAuthPublicKey_rejected_get jwksUrl kid w e0 Hget). now left. }
  destruct (Js.truthy data) eqn:Ht.
  { rewrite (getAuthPublicKey_hit_any jwksUrl kid w data Hget Ht). now left. }
  rewrite (ResolverFacts.getAuthPublicKey_miss getSigningKey jwksUrl kid w data Hget Ht).
  destruct (getSigningKey (Js.to_string jwksUrl) kid) as [key | err].
  2:{ right. left. cbn. repeat split. intros bs. discriminate. }
  destruct (Js.or_else (publicKey key) (rsaPublicKey key)) as [sk |].
  2:{ right. left. cbn. repeat split. intros bs. discriminate. }
  right. right. exists (Buffer.to_base64 (Buffer.from_string sk)). cbn zeta.
  destruct (cache_set _ _ _ _) as [[[] | e1] c1]; cbn [fst snd io store].
  - repeat split. intros k [= <-].
    now rewrite Base64Facts.from_base64_to_base64.
  - repeat split. intros k Hk. discriminate.
Qed.

(** X11: the secret callback of the modern verifier always ends in one
    call of [done].  It calls [done(null, key)] exactly with what the
    resolver was fulfilled with; it calls [done(err)] either with "JWT KID
    Not Found", when the header is missing or has no key id, without any
    lookup or fetch, or with the reason the resolver rejected with.  The
    error "Public Key not found for KID ..." is never produced. *)
Theorem secret_callback_outcomes (jwksUrl : option string) (hdr : option Header)
    (w : World C) :
  let w' := (v2JwtCheck_secret getSigningKey jwksUrl hdr w).2 in
  exists d,
    (v2JwtCheck_secret getSigningKey jwksUrl hdr w).1 = Fulfilled d
    /\ match d with
       | DoneKey key =>
           exists h, hdr = Some h /\ Js.truthy (kid h) = true
             /\ getAuthPublicKey getSigningKey jwksUrl (Js.to_string (kid h)) w
                = (Fulfilled key, w')
       | DoneError e =>
           (e = Js.mkError "Error" "JWT KID Not Found" /\ w' = w
            /\ (hdr = None \/ exists h, hdr = Some h /\ Js.truthy (kid h) = false))
           \/ (exists h, hdr = Some h /\ Js.truthy (kid h) = true
                 /\ getAuthPublicKey getSigningKey jwksUrl (Js.to_string (kid h)) w
                    = (Rejected e, w'))
       end.
Proof.
  cbv zeta. unfold v2JwtCheck_secret.
  destruct hdr as [h |].
  2:{ eexists. split; [reflexivity |]. left. repeat split. now left. }
  destruct (Js.truthy (kid h)) eqn:Hk; cbn [negb].
  2:{ eexists. split; [reflexivity |]. left. repeat split. right. eauto. }
  unfold then2.
  destruct (getAuthPublicKey getSigningKey jwksUrl (Js.to_string (kid h)) w)
    as [[key | e] w1] eqn:Hres.
  - assert (key_truthy key = true) as -> by (destruct key; reflexivity).
    eexists. split; [reflexivity |]. cbn. eauto.
  - eexists. split; [reflexivity |]. right. cbn. eauto.
Qed.

(** X12: when the cache lookup itself rejects, the resolver rejects with
    the cache's error without creating a key-set client or fetching, and
    the secret callback reports that error through [done(err)]: a cache
    outage fails the verification of every modern token. *)
Theorem cache_failure_reaches_done (jwksUrl : option string) (h : Header)
    (w : World C) (e : Js.Error) :
  Js.truthy (kid h) = true ->
  cache_get ("kid" +:+ Js.to_string (kid h)) (store w) = Rejected e ->
  v2JwtCheck_secret getSigningKey jwksUrl (Some h) w =
    (Fulfilled (DoneError e),
     mkWorld (store w) (io w ++ [IoCacheGet ("kid" +:+ Js.to_string (kid h))])).
Proof.
  intros Hk Hget. unfold v2JwtCheck_secret. rewrite Hk. cbn [negb].
  unfold then2.
  rewrite (getAuthPublicKey_rejected_get jwksUrl _ w e Hget). reflexivity.
Qed.

End Resolver.

End ResolverMore.

(** ** More on route exclusion *)

Module RoutesMore.

Import Routes Props MoreProps.

(** *** The compiled list *)




Lemma uniq_subset (l seen : list RouteSpec) (x : RouteSpec) :
  In x (uniq seen l) -> In x l.
Proof.
  revert seen. induction l as [| y l IH]; intros seen Hin; cbn [uniq] in Hin.
  - destruct Hin.
  - destruct (existsb (same_value y) seen).
    + right. now apply (IH seen).
    + destruct Hin as [-> | Hin]; [now left | right; now apply (IH (y :: seen))].
Qed.




(** *** Duplicates *)

Lemma uniq_app (l1 seen : list RouteSpec) :
  exists seen',
    (forall l2, uniq seen (l1 ++ l2) = uniq seen l1 ++ uniq seen' l2)
    /\ (forall s, In (SString s) seen \/ In (SString s) l1 -> In (SString s) seen').
Proof.
  revert seen. induction l1 as [| x l1 IH]; intros seen.
  - exists seen. split; [reflexivity | intros s [Hs | []]; exact Hs].
  - cbn [app uniq]. destruct (existsb (same_value x) seen) eqn:Hx.
    + destruct (IH seen) as (seen' & Happ & Hin). exists seen'. split; [exact Happ |].
      intros s [Hs | [-> | Hs]]; apply Hin; auto.
      left. apply existsb_exists in Hx as (y & Hy & Hsame).
      destruct y; cbn in Hsame; try discriminate.
      apply String.eqb_eq in Hsame. now subst.
    + destruct (IH (x :: seen)) as (seen' & Happ & Hin). exists seen'. split.
      * intros l2. now rewrite Happ.
      * intros s [Hs | [-> | Hs]]; apply Hin; auto; left; [now right | now left].
Qed.

(** X14: configuring a string that is already a built-in exclusion, or
    that stands earlier in the configured list, changes nothing: the lists
    with and without the repeated entry compile to the same result. *)
Theorem repeated_string_ignored (l1 l2 : list RouteSpec) (s : string) :
  In (SString s) (defaultExcludedRoutes ++ l1) ->
  getExcludedRoutes (Some (l1 ++ SString s :: l2)) = getExcludedRoutes (Some (l1 ++ l2)).
Proof.
  intros Hin. unfold getExcludedRoutes, union. cbn [from_option id].
  rewrite !app_assoc.
  destruct (uniq_app (defaultExcludedRoutes ++ l1) []) as (seen' & Happ & Hseen).
  rewrite !Happ. cbn [uniq].
  assert (existsb (same_value (SString s)) seen' = true) as ->.
  { apply existsb_exists. exists (SString s). split; [apply Hseen; now right |].
    cbn. apply String.eqb_refl. }
  reflexivity.
Qed.

(** *** Entries that do not compile *)

Lemma map_routes_throws (l : list RouteSpec) (x : RouteSpec) (e : Js.Error) :
  In x l -> compile_route x = Js.Throw e ->
  exists e', map_routes l = Js.Throw e'.
Proof.
  intros Hin Hx. induction l as [| y l IH]; [destruct Hin |].
  cbn [map_routes]. destruct (compile_route y) as [r | e0] eqn:Hy; [| eauto].
  destruct Hin as [-> | Hin]; [congruence |].
  destruct (IH Hin) as [e' ->]. eauto.
Qed.

Lemma compile_route_throw_name (x : RouteSpec) (e : Js.Error) :
  compile_route x = Js.Throw e ->
  Js.name e = "SyntaxError" \/ Js.name e = "TypeError".
Proof.
  destruct x as [s | r re | r [[s | re] |] m |]; cbn [compile_route]; unfold new_RegExp.
  - destruct (RegExp.create s "i"); [discriminate |]. intros [= <-]. now left.
  - discriminate.
  - destruct (String.eqb s ""); [discriminate |].
    destruct (RegExp.create s "i"); [discriminate |]. intros [= <-]. now left.
  - discriminate.
  - discriminate.
  - intros [= <-]. now right.
Qed.

Lemma map_routes_throw_name (l : list RouteSpec) (e : Js.Error) :
  map_routes l = Js.Throw e ->
  Js.name e = "SyntaxError" \/ Js.name e = "TypeError".
Proof.
  induction l as [| x l IH]; cbn [map_routes]; [discriminate |].
  destruct (compile_route x) as [r | e0] eqn:Hx.
  - destruct (map_routes l) as [rs | e1]; [discriminate |].
    intros [= <-]. now apply IH.
  - intros [= <-]. now apply (compile_route_throw_name x).
Qed.

Lemma leading_quantifier_refused (s : string) :
  leading_quantifier s = true -> RegExp.create s "i" = None.
Proof.
  destruct s as [| c s]; [discriminate |]. cbn [leading_quantifier].
  intros Hq. unfold RegExp.create. cbn [list_ascii_of_string].
  destruct (Ascii.eqb_spec c "*") as [-> | H1]; [reflexivity |].
  destruct (Ascii.eqb_spec c "+") as [-> | H2]; [reflexivity |].
  destruct (Ascii.eqb_spec c "?") as [-> | H3]; [reflexivity |].
  discriminate.
Qed.

(** X15: a configured string that begins with a quantifier ([*], [+] or
    [?], as in a glob such as [*.css]) is not a pattern: compiling the
    exclusions throws, and so does initialisation, with a SyntaxError (or
    with the TypeError of an earlier entry that is [null]). *)
Theorem leading_quantifier_aborts (cfg : Auth0.Config) (l : list RouteSpec)
    (s : string) :
  Auth0.excludedRoutes cfg = Some l ->
  In (SString s) l ->
  leading_quantifier s = true ->
  exists e,
    getExcludedRoutes (Some l) = Js.Throw e
    /\ Auth0.module_exports (Some cfg) = Js.Throw e
    /\ (Js.name e = "SyntaxError" \/ Js.name e = "TypeError").
Proof.
  intros Hcfg Hin Hq.
  assert (exists e, map_routes (union defaultExcludedRoutes l) = Js.Throw e)
    as [e He].
  { apply (map_routes_throws _ (SString s) (syntax_error s)).
    - apply RoutesFacts.union_keeps_string. apply in_or_app. now right.
    - cbn [compile_route]. unfold new_RegExp.
      now rewrite (leading_quantifier_refused s Hq). }
  exists e.
  assert (getExcludedRoutes (Some l) = Js.Throw e) as Hget.
  { unfold getExcludedRoutes. cbn [from_option id]. now rewrite He. }
  split; [exact Hget | split].
  - unfold Auth0.module_exports. cbn [Auth0.excludedRoutes].
    rewrite Hcfg, Hget. reflexivity.
  - now apply (map_routes_throw_name _ e He).
Qed.

(** *** Which paths a plain pattern accepts *)

Lemma run_atom_eq (c : ascii) (i : nat) (s : list ascii)
    (k : nat -> list ascii -> option nat) :
  RegExp.run true (atom c) i s k =
    match s with
    | x :: s' => if atom_matches c x then k (S i) s' else None
    | [] => None
    end.
Proof.
  unfold atom, atom_matches. destruct (Ascii.eqb c "."); cbn [RegExp.run].
  - destruct s as [| x s']; [reflexivity |].
    destruct (RegExp.line_terminator x); reflexivity.
  - destruct s as [| x s']; reflexivity.
Qed.

Lemma run_literal_eq (cs : list ascii) :
  forall (i : nat) (s : list ascii) (k : nat -> list ascii -> option nat),
    RegExp.run true (literal_pattern cs) i s k =
      match literal_prefix cs s with
      | Some rest => k (i + length cs)%nat rest
      | None => None
      end.
Proof.
  induction cs as [| c cs IH]; intros i s k.
  - cbn. now rewrite Nat.add_0_r.
  - cbn [literal_pattern fold_right RegExp.run literal_prefix].
    rewrite run_atom_eq. destruct s as [| x s']; [reflexivity |].
    destruct (atom_matches c x); [| reflexivity].
    fold (literal_pattern cs). rewrite IH. cbn [length].
    now rewrite Nat.add_succ_r.
Qed.

Lemma literal_prefix_spec (cs s rest : list ascii) :
  literal_prefix cs s = Some rest
  <-> exists xs, s = xs ++ rest
                 /\ Forall2 (fun c x => atom_matches c x = true) cs xs.
Proof.
  revert s. induction cs as [| c cs IH]; intros s; cbn [literal_prefix].
  - split.
    + intros [= ->]. exists []. split; [reflexivity | constructor].
    + intros (xs & -> & Hall). destruct xs as [| x xs]; [reflexivity |].
      apply Forall2_nil_cons_inv in Hall. destruct Hall.
  - destruct s as [| x s'].
    + split; [discriminate |]. intros (xs & Hs & Hall).
      destruct xs as [| x xs]; [apply Forall2_cons_nil_inv in Hall; destruct Hall |].
      discriminate.
    + destruct (atom_matches c x) eqn:Hc.
      * rewrite IH. split.
        -- intros (xs & -> & Hall). exists (x :: xs). split; [reflexivity |].
           now constructor.
        -- intros (xs & Hs & Hall). destruct xs as [| x0 xs];
             [apply Forall2_cons_nil_inv in Hall; destruct Hall |].
           injection Hs as <- ->. apply Forall2_cons in Hall as [_ Hall]. eauto.
      * split; [discriminate |]. intros (xs & Hs & Hall).
        destruct xs as [| x0 xs];
          [apply Forall2_cons_nil_inv in Hall; destruct Hall |].
        injection Hs as <- ->. apply Forall2_cons in Hall as [Hx _]. congruence.
Qed.

Lemma occurs_in_spec (cs s : list ascii) :
  occurs_in cs s = true
  <-> exists pre xs post,
        s = pre ++ xs ++ post
        /\ Forall2 (fun c x => atom_matches c x = true) cs xs.
Proof.
  induction s as [| y s IH]; cbn [occurs_in].
  - destruct (literal_prefix cs []) as [rest |] eqn:Hp.
    + split; [intros _ | reflexivity].
      apply literal_prefix_spec in Hp as (xs & Hs & Hall).
      exists [], xs, rest. auto.
    + split; [discriminate |]. intros (pre & xs & post & Hs & Hall).
      destruct pre; [| discriminate]. cbn [app] in Hs.
      assert (literal_prefix cs [] = Some post) as Hq
        by (apply literal_prefix_spec; eauto).
      congruence.
  - destruct (literal_prefix cs (y :: s)) as [rest |] eqn:Hp.
    + split; [intros _ | reflexivity].
      apply literal_prefix_spec in Hp as (xs & Hs & Hall).
      exists [], xs, rest. auto.
    + rewrite IH. split.
      * intros (pre & xs & post & -> & Hall). exists (y :: pre), xs, post. auto.
      * intros (pre & xs & post & Hs & Hall). destruct pre as [| y0 pre].
        -- cbn [app] in Hs.
           assert (literal_prefix cs (y :: s) = Some post) as Hq
             by (apply literal_prefix_spec; eauto).
           congruence.
        -- injection Hs as <- ->. eauto.
Qed.

Lemma search_literal (cs s : list ascii) :
  forall i : nat,
    is_Some (RegExp.search true (literal_pattern cs) i s) <-> occurs_in cs s = true.
Proof.
  induction s as [| y s IH]; intros i;
    rewrite RoutesFacts.search_unfold, run_literal_eq; cbn [occurs_in].
  - destruct (literal_prefix cs []); [split; eauto |].
    split; [intros [v Hv]; discriminate | discriminate].
  - destruct (literal_prefix cs (y :: s)); [split; eauto |]. apply IH.
Qed.

Lemma literal_regexp_exec (s path : string) :
  is_Some (RegExp.exec (literal_regexp s) path).1 <-> occurs s path.
Proof.
  unfold RegExp.exec, literal_regexp, occurs.
  cbn [RegExp.global RegExp.lastIndex RegExp.ignoreCase RegExp.pattern
       Nat.ltb Nat.leb skipn].
  rewrite <- occurs_in_spec, <- (search_literal _ _ O).
  destruct (RegExp.search _ _ _ _) as [[b e] |]; cbn [fst]; split; eauto.
Qed.

(** X16: a string without pattern syntax other than [.] always compiles,
    into a pattern that [exec] finds in a path exactly when the string
    occurs in the path: at any position, up to case, with [.] standing for
    any character but a line terminator.  [exec] leaves such a pattern as
    it was. *)
Theorem plain_pattern_accepts_iff (ref : string) :
  plain_source ref = true ->
  exists re,
    compile_route (SString ref) = Js.Normal (RRegExp re)
    /\ forall path,
         (is_Some (RegExp.exec re path).1 <-> occurs ref path)
         /\ (RegExp.exec re path).2 = re.
Proof.
  intros Hp. exists (literal_regexp ref). split.
  - cbn [compile_route]. unfold new_RegExp.
    now rewrite (RoutesFacts.create_plain ref Hp).
  - intros path. split; [apply literal_regexp_exec |].
    unfold RegExp.exec, literal_regexp.
    cbn [RegExp.global RegExp.lastIndex RegExp.ignoreCase RegExp.pattern
         Nat.ltb Nat.leb skipn].
    destruct (RegExp.search _ _ _ _) as [[b e] |]; reflexivity.
Qed.

(** *** Which requests a plain configuration excludes *)

Lemma isExcluded_true_inv (routes : list Route) (method path : string) :
  (isExcluded routes method path).1 = true ->
  exists r, In r routes /\ (route_match r method path).1 = true.
Proof.
  induction routes as [| r0 rs IH]; cbn [isExcluded]; [discriminate |].
  destruct (route_match r0 method path) as [b r0'] eqn:Hr0. destruct b.
  - intros _. exists r0. split; [now left | now rewrite Hr0].
  - destruct (isExcluded rs method path) as [b' rs']. cbn [fst] in *.
    intros Hb. destruct (IH Hb) as (r & Hin & Hm). exists r. split; [now right | exact Hm].
Qed.

Lemma map_routes_In_inv (l : list RouteSpec) (rs : list Route) (r : Route) :
  map_routes l = Js.Normal rs -> In r rs ->
  exists x, In x l /\ compile_route x = Js.Normal r.
Proof.
  revert rs. induction l as [| y l IH]; intros rs Hmap Hin; cbn [map_routes] in Hmap.
  - injection Hmap as <-. destruct Hin.
  - destruct (compile_route y) as [ry | e] eqn:Hy; [| discriminate].
    destruct (map_routes l) as [rs' | e]; [| discriminate].
    injection Hmap as <-. destruct Hin as [<- | Hin].
    + exists y. split; [now left | exact Hy].
    + destruct (IH rs' eq_refl Hin) as (x & Hx & Hc). exists x. split; [now right | exact Hc].
Qed.

Lemma map_routes_ok (l : list RouteSpec) :
  (forall x, In x l -> exists r, compile_route x = Js.Normal r) ->
  exists rs, map_routes l = Js.Normal rs.
Proof.
  induction l as [| y l IH]; intros Hall; cbn [map_routes]; [eauto |].
  destruct (Hall y (or_introl eq_refl)) as [r ->].
  destruct IH as [rs ->]; [intros x Hx; apply Hall; now right | eauto].
Qed.

Lemma route_match_literal (s method path : string) :
  (route_match (RRegExp (literal_regexp s)) method path).1 = true <-> occurs s path.
Proof.
  cbn [route_match].
  pose proof (RoutesFacts.isUrlMatch_fresh (literal_regexp s) path eq_refl) as Hf.
  destruct (isUrlMatch (literal_regexp s) path) as [b re']. cbn [fst] in *.
  subst b. rewrite bool_decide_eq_true.
  unfold literal_regexp at 1 2. cbn [RegExp.ignoreCase RegExp.pattern].
  rewrite search_literal. unfold occurs. now rewrite occurs_in_spec.
Qed.

Lemma route_match_root (method path : string) :
  (route_match (RRegExp root_pattern) method path).1 = true <-> path = "/".
Proof.
  cbn [route_match].
  pose proof (RoutesFacts.root_matches_only_root path) as Hr.
  destruct (isUrlMatch root_pattern path) as [b re']. exact Hr.
Qed.

Lemma In_default_strings (s : string) :
  In (SString s) defaultExcludedRoutes <-> In s default_strings.
Proof.
  cbn. split; intros Hin;
    repeat (destruct Hin as [Hin | Hin]; [first [injection Hin as <- | subst s]; tauto |]);
    destruct Hin.
Qed.

(** X17: for a configuration whose exclusions are all strings without
    pattern syntax other than [.], compiling always succeeds, and a request
    is excluded exactly when its path is [/] or one of the built-in or
    configured strings occurs in it; the method plays no part.  Every other
    request goes to the selector. *)
Theorem plain_configuration_excluded_iff (configured : list string) :
  Forall (fun s => plain_source s = true) configured ->
  exists routes,
    getExcludedRoutes (Some (map SString configured)) = Js.Normal routes
    /\ forall method path,
         (isExcluded routes method path).1 = true
         <-> path = "/"
             \/ exists s, In s (default_strings ++ configured) /\ occurs s path.
Proof.
  intros Hplain.
  assert (forall x, In x (defaultExcludedRoutes ++ map SString configured) ->
            exists s, x = SString s /\ In s (default_strings ++ configured)
                      /\ plain_source s = true) as Hsrc.
  { intros x Hx. apply in_app_or in Hx as [Hx | Hx].
    - destruct x as [s | | |]; try (cbn in Hx; intuition discriminate).
      exists s. split; [reflexivity | split].
      + apply in_or_app. left. now apply In_default_strings.
      + now apply RoutesFacts.defaults_plain.
    - apply in_map_iff in Hx as (s & <- & Hs). exists s.
      split; [reflexivity | split; [apply in_or_app; now right |]].
      now apply (proj1 (List.Forall_forall _ _) Hplain). }
  destruct (map_routes_ok (union defaultExcludedRoutes (map SString configured)))
    as [compiled Hmap].
  { intros x Hx. apply uniq_subset in Hx.
    destruct (Hsrc x Hx) as (s & -> & _ & Hp).
    exists (RRegExp (literal_regexp s)). cbn [compile_route]. unfold new_RegExp.
    now rewrite (RoutesFacts.create_plain s Hp). }
  exists (compiled ++ [RRegExp root_pattern]). split.
  { unfold getExcludedRoutes. cbn [from_option id]. rewrite Hmap.
    now rewrite RoutesFacts.new_RegExp_root. }
  intros method path. split.
  - intros Hex. apply isExcluded_true_inv in Hex as (r & Hin & Hm).
    apply in_app_or in Hin as [Hin | [<- | []]].
    + right. destruct (map_routes_In_inv _ _ r Hmap Hin) as (x & Hx & Hc).
      apply uniq_subset in Hx. destruct (Hsrc x Hx) as (s & -> & Hs & Hp).
      cbn [compile_route] in Hc. unfold new_RegExp in Hc.
      rewrite (RoutesFacts.create_plain s Hp) in Hc. injection Hc as <-.
      exists s. split; [exact Hs |]. now apply (route_match_literal s method path).
    + left. now apply (route_match_root method path).
  - intros [-> | (s & Hs & Hocc)].
    + apply (RoutesFacts.isExcluded_found (RRegExp root_pattern));
        [apply in_or_app; right; now left | now apply route_match_root].
    + assert (In (SString s) (defaultExcludedRoutes ++ map SString configured))
        as Hin.
      { apply in_app_or in Hs as [Hs | Hs]; apply in_or_app.
        - left. now apply In_default_strings.
        - right. now apply in_map. }
      destruct (Hsrc _ Hin) as (s' & [= <-] & _ & Hp).
      apply (RoutesFacts.isExcluded_found (RRegExp (literal_regexp s))).
      * apply in_or_app. left.
        apply (RoutesFacts.map_routes_In _ _ (SString s) _ Hmap).
        -- now apply RoutesFacts.union_keeps_string.
        -- cbn [compile_route]. unfold new_RegExp.
           now rewrite (RoutesFacts.create_plain s Hp).
      * now apply route_match_literal.
Qed.

End RoutesMore.

(** ** The middlewares together *)

Module PipelineFacts.

Import Routes Auth0 Props MoreProps.

Lemma defaults_in_routes (cfg : option (list RouteSpec)) (routes : list Route)
    (d : string) :
  getExcludedRoutes cfg = Js.Normal routes ->
  In d default_strings ->
  In (RRegExp (literal_regexp d)) routes.
Proof.
  intros Hget Hd.
  destruct (RoutesFacts.getExcludedRoutes_inv cfg routes Hget) as (compiled & Hmap & ->).
  apply in_or_app. left.
  apply (RoutesFacts.map_routes_In _ _ (SString d) _ Hmap).
  - apply RoutesFacts.union_keeps_string, in_or_app. left.
    now apply RoutesMore.In_default_strings.
  - cbn [compile_route]. unfold new_RegExp.
    rewrite (RoutesFacts.create_plain d); [reflexivity |].
    now apply RoutesFacts.defaults_plain, RoutesMore.In_default_strings.
Qed.

(** X18: under every configuration that initialises, a request whose path
    is [/] or in whose path one of the four built-in strings occurs is
    passed on with a plain [next()]: the token is not decoded and no
    verifier is called, whatever the method and the headers. *)
Theorem built_in_paths_skip_authentication
    (jwt_decode : option string -> DecodeOutcome)
    (cfg : Config) (inst : Installed) (req : Request) :
  module_exports (Some cfg) = Js.Normal (Some inst) ->
  path req = "/" \/ (exists d, In d default_strings /\ occurs d (path req)) ->
  (jwtAuthentication_unless jwt_decode inst req).1 = [Next None].
Proof.
  intros Hinit Hpath.
  destruct (SetupFacts.module_exports_inv cfg inst Hinit) as (Hget & _).
  apply SelectorFacts.authentication_excluded.
  destruct Hpath as [-> | (d & Hd & Hocc)].
  - apply (RoutesFacts.isExcluded_found (RRegExp root_pattern)).
    + destruct (RoutesFacts.getExcludedRoutes_inv _ _ Hget) as (compiled & _ & ->).
      apply in_or_app. right. now left.
    + now apply RoutesMore.route_match_root.
  - apply (RoutesFacts.isExcluded_found (RRegExp (literal_regexp d))).
    + now apply (defaults_in_routes (excludedRoutes cfg)).
    + now apply RoutesMore.route_match_literal.
Qed.

End PipelineFacts.

(** ** More on identity propagation *)

Module IdentityMore.

Import Auth0 Props MoreProps.

(** X19: the middleware changes nothing of a request but the [id_token]
    field of its identity: method, path and headers are kept, an identity
    is neither created nor removed, every other field of the identity keeps
    its value; and running it again on its own result changes nothing. *)
Theorem id_token_only_and_idempotent (req req' : Request) :
  id_token_middleware req = Js.Normal req' ->
  method req' = method req /\ path req' = path req /\ headers req' = headers req
  /\ (user req' = None <-> user req = None)
  /\ (forall u u' k, user req = Some u -> user req' = Some u' ->
        k <> "id_token" -> u' !! k = u !! k)
  /\ id_token_middleware req' = Js.Normal req'.
Proof.
  intros Hres.
  destruct (IdentityFacts.bearer_dec req) as [(u & a & Hu & Ha & Hs) | Hn].
  - rewrite (IdentityFacts.id_token_middleware_bearer req u a Hu Ha Hs) in Hres.
    injection Hres as <-. unfold with_id_token. cbn [method path headers user].
    repeat split.
    + discriminate.
    + congruence.
    + intros u0 u' k Hu0 [= <-] Hk. rewrite Hu in Hu0. injection Hu0 as <-.
      now apply lookup_insert_ne.
    + rewrite (IdentityFacts.id_token_middleware_bearer
                 (mkRequest (method req) (path req) (headers req)
                    (Some (<["id_token" := Js.val_of (Js.index (Js.split " " a) 1)]> u)))
                 (<["id_token" := Js.val_of (Js.index (Js.split " " a) 1)]> u) a
                 eq_refl Ha Hs).
      unfold with_id_token. cbn [method path headers user].
      now rewrite insert_insert_eq.
  - destruct (IdentityFacts.id_token_middleware_other req Hn) as [Heq | [e Heq]];
      rewrite Heq in Hres; [| discriminate].
    injection Hres as <-. repeat split; try tauto; try exact Heq.
    all: intros u u' k Hu Hu' _; congruence.
Qed.

(** X20: what is stored is the text between the first and the second space
    of the header only: for a header [Bearer <credential> <more>] the field
    is the credential and the rest is dropped; for the header [Bearer]
    alone the field is stored with the value [undefined]. *)
Theorem id_token_is_second_word (req : Request) (u : gmap string Js.Val) :
  user req = Some u ->
  (forall cred more, no_space cred ->
     header_authorization req = Some ("Bearer " +:+ cred +:+ " " +:+ more) ->
     id_token_middleware req = Js.Normal (with_id_token req u (Js.VStr cred)))
  /\ (header_authorization req = Some "Bearer" ->
      id_token_middleware req = Js.Normal (with_id_token req u Js.VUndefined)).
Proof.
  intros Hu. split.
  - intros cred more Hc Ha.
    assert (Js.split " " ("Bearer " +:+ cred +:+ " " +:+ more)
            = "Bearer" :: cred :: Js.split " " more) as Hsplit.
    { change ("Bearer " +:+ cred +:+ " " +:+ more)
        with ("Bearer" +:+ " " +:+ (cred +:+ " " +:+ more)).
      rewrite SelectorMore.split_scheme.
      - now rewrite (SelectorMore.split_scheme cred more Hc).
      - unfold no_space. cbn. repeat constructor; discriminate. }
    rewrite (IdentityFacts.id_token_middleware_bearer req u _ Hu Ha).
    + now rewrite Hsplit.
    + unfold scheme_token. now rewrite Hsplit.
  - intros Ha.
    now rewrite (IdentityFacts.id_token_middleware_bearer req u _ Hu Ha eq_refl).
Qed.

End IdentityMore.

(** ** The further theorems on concrete inputs *)

Module MoreWitnesses.

Import Promise Auth0 Props MoreProps MoreDemo.

Lemma irregular_secret_used_raw_witness :
  let inst := Demo.installed Demo.config_both in
  module_exports (Some Demo.config_both) = Js.Normal (Some inst)
  /\ secret Demo.config_both = Some "s3cret!"
  /\ enableV1 Demo.config_both <> Some false
  /\ (forall k, String.length "s3cret!" <> (4 * k)%nat)
  /\ v1JwtCheck inst = Some (mkV1 (SecretString "s3cret!") (Some "client")).
Proof.
  intros inst.
  assert (module_exports (Some Demo.config_both) = Js.Normal (Some inst)) as Hinit
    by (vm_compute; reflexivity).
  assert (enableV1 Demo.config_both <> Some false) as He by discriminate.
  assert (forall k, String.length "s3cret!" <> (4 * k)%nat) as Hlen
    by (intros k; cbn; lia).
  refine (conj Hinit (conj eq_refl (conj He (conj Hlen _)))).
  exact (SetupFacts.irregular_secret_used_raw Demo.config_both inst "s3cret!"
           Hinit eq_refl He (or_introl Hlen)).
Defined.

Lemma regular_secret_decoded_witness :
  let inst := Demo.installed MoreDemo.config_plain_secret in
  module_exports (Some MoreDemo.config_plain_secret) = Js.Normal (Some inst)
  /\ String.length "mysecret" = (4 * 2)%nat
  /\ forallb base64url_char (list_ascii_of_string "mysecret") = true
  /\ v1JwtCheck inst =
       Some (mkV1 (SecretBuffer (Buffer.from_base64 "mysecret")) (Some "client")).
Proof.
  intros inst.
  assert (module_exports (Some MoreDemo.config_plain_secret) = Js.Normal (Some inst))
    as Hinit by (vm_compute; reflexivity).
  refine (conj Hinit (conj eq_refl (conj eq_refl _))).
  exact (SetupFacts.regular_secret_decoded MoreDemo.config_plain_secret inst
           "mysecret" 1 Hinit eq_refl ltac:(discriminate) eq_refl eq_refl).
Defined.

Lemma base64_secret_witness :
  let inst := Demo.installed MoreDemo.config_base64_secret in
  let bs := [Byte.xfb; Byte.xff] in
  module_exports (Some MoreDemo.config_base64_secret) = Js.Normal (Some inst)
  /\ secret MoreDemo.config_base64_secret = Some (Buffer.to_base64 bs)
  /\ v1JwtCheck inst = Some (mkV1 (SecretString "+/8=") (Some "client")).
Proof.
  intros inst bs.
  assert (module_exports (Some MoreDemo.config_base64_secret) = Js.Normal (Some inst))
    as Hinit by (vm_compute; reflexivity).
  refine (conj Hinit (conj eq_refl _)).
  exact (SetupFacts.base64_secret_decoded_unless_plus_or_slash
           MoreDemo.config_base64_secret inst bs Hinit eq_refl
           ltac:(discriminate) ltac:(discriminate)).
Defined.

Lemma scheme_word_ignored_witness :
  let inst := Demo.installed Demo.config_both in
  let t := "eyJhbGciOiJSUzI1NiIsImtpZCI6ImtleS0xIn0.e30.c2ln" in
  no_space "Basic" /\ no_space "Bearer"
  /\ jwtAuthentication Demo.jwt_decode inst
       (MoreDemo.request_to "POST" "/api/pay" (Some ("Basic" +:+ " " +:+ t)))
     = jwtAuthentication Demo.jwt_decode inst
         (Demo.request (Some ("Bearer" +:+ " " +:+ t))).
Proof.
  intros inst t.
  assert (no_space "Basic") as H1 by (unfold no_space; cbn; repeat constructor; discriminate).
  assert (no_space "Bearer") as H2 by (unfold no_space; cbn; repeat constructor; discriminate).
  refine (conj H1 (conj H2 _)).
  exact (SelectorMore.scheme_word_ignored Demo.jwt_decode inst
           (MoreDemo.request_to "POST" "/api/pay" (Some ("Basic" +:+ " " +:+ t)))
           (Demo.request (Some ("Bearer" +:+ " " +:+ t)))
           "Basic" "Bearer" t H1 H2 eq_refl eq_refl).
Defined.

Lemma no_verifier_no_verification_witness :
  let inst := Demo.installed MoreDemo.config_nothing in
  module_exports (Some MoreDemo.config_nothing) = Js.Normal (Some inst)
  /\ enableV1 MoreDemo.config_nothing = Some false
  /\ Js.truthy (audience MoreDemo.config_nothing) = false
  /\ Forall (fun a => (is_rejection a \/ raises_type_error a) /\ ~ hands_to_verifier a)
       (jwtAuthentication Demo.jwt_decode inst
          (Demo.request (Some "Bearer eyJhbGciOiJIUzI1NiJ9.e30.c2ln"))).
Proof.
  intros inst.
  assert (module_exports (Some MoreDemo.config_nothing) = Js.Normal (Some inst))
    as Hinit by (vm_compute; reflexivity).
  refine (conj Hinit (conj eq_refl (conj eq_refl _))).
  exact (SelectorMore.no_verifier_no_verification Demo.jwt_decode
           MoreDemo.config_nothing inst
           (Demo.request (Some "Bearer eyJhbGciOiJIUzI1NiJ9.e30.c2ln"))
           Hinit (or_intror eq_refl) (or_introl eq_refl)).
Defined.

Lemma disabled_scheme_never_used_witness :
  let inst := Demo.installed MoreDemo.config_nothing in
  module_exports (Some MoreDemo.config_nothing) = Js.Normal (Some inst)
  /\ enableV1 MoreDemo.config_nothing = Some false
  /\ v1JwtCheck inst = None
  /\ ~ invokes_legacy
         (jwtAuthentication Demo.jwt_decode inst
            (Demo.request (Some "Bearer eyJhbGciOiJIUzI1NiJ9.e30.c2ln"))).
Proof.
  intros inst.
  assert (module_exports (Some MoreDemo.config_nothing) = Js.Normal (Some inst))
    as Hinit by (vm_compute; reflexivity).
  refine (conj Hinit (conj eq_refl _)).
  exact (proj1 (SelectorMore.disabled_scheme_never_used Demo.jwt_decode
                  MoreDemo.config_nothing inst
                  (Demo.request (Some "Bearer eyJhbGciOiJIUzI1NiJ9.e30.c2ln"))
                  Hinit) eq_refl).
Defined.

Lemma second_resolution_hits_witness :
  let key := mkSigningKey (Some "PEM-1") None in
  store Demo.empty_world !! ("kid" +:+ "key-1") = None
  /\ Demo.getSigningKey (Js.to_string (Some "https://jwks")) "key-1" = Fulfilled key
  /\ Js.or_else (publicKey key) (rsaPublicKey key) = Some "PEM-1"
  /\ "PEM-1" <> ""
  /\ exists w1,
       getAuthPublicKey Demo.getSigningKey (Some "https://jwks") "key-1" Demo.empty_world
       = (Fulfilled (KBuffer (Buffer.from_string "PEM-1")), w1)
       /\ store w1 !! ("kid" +:+ "key-1")
          = Some (Buffer.to_base64 (Buffer.from_string "PEM-1"), 36000%Z)
       /\ getAuthPublicKey Demo.getSigningKey (Some "https://jwks") "key-1" w1
          = (Fulfilled (KBuffer (Buffer.from_string "PEM-1")),
             mkWorld (store w1) (io w1 ++ [IoCacheGet ("kid" +:+ "key-1")])).
Proof.
  intros key.
  assert (store Demo.empty_world !! ("kid" +:+ "key-1") = None) as Hnone
    by apply lookup_empty.
  assert ("PEM-1" <> "") as Hne by discriminate.
  refine (conj Hnone (conj eq_refl (conj eq_refl (conj Hne _)))).
  exact (ResolverFacts.second_resolution_hits Demo.getSigningKey
           (Some "https://jwks") "key-1" Demo.empty_world key "PEM-1"
           Hnone eq_refl eq_refl Hne).
Defined.

Lemma cache_failure_reaches_done_witness :
  let h := mkHeader (Some "RS256") (Some "key-1") in
  Js.truthy (kid h) = true
  /\ cache_get ("kid" +:+ Js.to_string (kid h)) (store MoreDemo.down_world)
     = Rejected MoreDemo.cache_down
  /\ v2JwtCheck_secret Demo.getSigningKey (Some "https://jwks") (Some h)
       MoreDemo.down_world
     = (Fulfilled (DoneError MoreDemo.cache_down),
        mkWorld (store MoreDemo.down_world)
          (io MoreDemo.down_world ++ [IoCacheGet ("kid" +:+ Js.to_string (kid h))])).
Proof.
  intros h.
  refine (conj eq_refl (conj eq_refl _)).
  exact (ResolverMore.cache_failure_reaches_done Demo.getSigningKey
           (Some "https://jwks") h MoreDemo.down_world MoreDemo.cache_down
           eq_refl eq_refl).
Defined.


Lemma repeated_string_ignored_witness :
  In (Routes.SString "/swagger")
    (Routes.defaultExcludedRoutes ++ [Routes.SString "/public"])
  /\ Routes.getExcludedRoutes
       (Some ([Routes.SString "/public"] ++ Routes.SString "/swagger" :: []))
     = Routes.getExcludedRoutes (Some ([Routes.SString "/public"] ++ [])).
Proof.
  assert (In (Routes.SString "/swagger")
            (Routes.defaultExcludedRoutes ++ [Routes.SString "/public"])) as Hin
    by (cbn; tauto).
  refine (conj Hin _).
  exact (RoutesMore.repeated_string_ignored [Routes.SString "/public"] []
           "/swagger" Hin).
Defined.

Lemma leading_quantifier_aborts_witness :
  let l := [Routes.SString "/public"; Routes.SString "*.css"] in
  excludedRoutes MoreDemo.config_glob = Some l
  /\ In (Routes.SString "*.css") l
  /\ leading_quantifier "*.css" = true
  /\ exists e,
       Routes.getExcludedRoutes (Some l) = Js.Throw e
       /\ module_exports (Some MoreDemo.config_glob) = Js.Throw e
       /\ (Js.name e = "SyntaxError" \/ Js.name e = "TypeError").
Proof.
  intros l.
  assert (In (Routes.SString "*.css") l) as Hin by (cbn; tauto).
  refine (conj eq_refl (conj Hin (conj eq_refl _))).
  exact (RoutesMore.leading_quantifier_aborts MoreDemo.config_glob l "*.css"
           eq_refl Hin eq_refl).
Defined.

Lemma plain_pattern_accepts_iff_witness :
  plain_source "/authtools/widget.js" = true
  /\ exists re,
       Routes.compile_route (Routes.SString "/authtools/widget.js")
       = Js.Normal (Routes.RRegExp re)
       /\ forall path,
            (is_Some (RegExp.exec re path).1 <-> occurs "/authtools/widget.js" path)
            /\ (RegExp.exec re path).2 = re.
Proof.
  refine (conj eq_refl _).
  exact (RoutesMore.plain_pattern_accepts_iff "/authtools/widget.js" eq_refl).
Defined.

Lemma plain_configuration_excluded_iff_witness :
  Forall (fun s => plain_source s = true) ["/public"]
  /\ exists routes,
       Routes.getExcludedRoutes (Some (map Routes.SString ["/public"]))
       = Js.Normal routes
       /\ forall method path,
            (Routes.isExcluded routes method path).1 = true
            <-> path = "/"
                \/ exists s, In s (default_strings ++ ["/public"]) /\ occurs s path.
Proof.
  assert (Forall (fun s => plain_source s = true) ["/public"]) as Hp
    by (repeat constructor).
  refine (conj Hp _).
  exact (RoutesMore.plain_configuration_excluded_iff ["/public"] Hp).
Defined.

Lemma built_in_paths_skip_authentication_witness :
  let inst := Demo.installed Demo.config_both in
  let req := MoreDemo.request_to "DELETE" "/v2/LiveCheck/now" None in
  module_exports (Some Demo.config_both) = Js.Normal (Some inst)
  /\ occurs "/livecheck" (path req)
  /\ (jwtAuthentication_unless Demo.jwt_decode inst req).1 = [Next None].
Proof.
  intros inst req.
  assert (module_exports (Some Demo.config_both) = Js.Normal (Some inst)) as Hinit
    by (vm_compute; reflexivity).
  assert (occurs "/livecheck" (path req)) as Hocc.
  { exists (list_ascii_of_string "/v2"), (list_ascii_of_string "/LiveCheck"),
      (list_ascii_of_string "/now").
    split; [reflexivity |]. cbn. repeat constructor. }
  refine (conj Hinit (conj Hocc _)).
  exact (PipelineFacts.built_in_paths_skip_authentication Demo.jwt_decode
           Demo.config_both inst req Hinit
           (or_intror (ex_intro _ "/livecheck" (conj (or_introl eq_refl) Hocc)))).
Defined.

Lemma id_token_only_and_idempotent_witness :
  let req := Demo.verified_request (Some "Bearer abc.def.ghi") in
  let req' := with_id_token req {[ "sub" := Js.VStr "user-1" ]} (Js.VStr "abc.def.ghi") in
  id_token_middleware req = Js.Normal req'
  /\ id_token_middleware req' = Js.Normal req'.
Proof.
  intros req req'.
  assert (id_token_middleware req = Js.Normal req') as Hres by reflexivity.
  refine (conj Hres _).
  exact (proj2 (proj2 (proj2 (proj2 (proj2
           (IdentityMore.id_token_only_and_idempotent req req' Hres)))))).
Defined.

Lemma id_token_is_second_word_witness :
  let req := Demo.verified_request (Some "Bearer abc.def.ghi trailing words") in
  user req = Some {[ "sub" := Js.VStr "user-1" ]}
  /\ no_space "abc.def.ghi"
  /\ id_token_middleware req
     = Js.Normal (with_id_token req {[ "sub" := Js.VStr "user-1" ]}
                    (Js.VStr "abc.def.ghi")).
Proof.
  intros req.
  assert (no_space "abc.def.ghi") as Hs
    by (unfold no_space; cbn; repeat constructor; discriminate).
  refine (conj eq_refl (conj Hs _)).
  exact (proj1 (IdentityMore.id_token_is_second_word req
                  {[ "sub" := Js.VStr "user-1" ]} eq_refl)
           "abc.def.ghi" "trailing words" Hs eq_refl).
Defined.

End MoreWitnesses.

(** ** Which calls reach a verifier *)

Module DispatchFacts.

Import Promise Auth0 Props MoreProps.

Section Dispatch.

Variable jwt_decode : option string -> DecodeOutcome.

Lemma legacy_or_reject_no_modern_call (inst : Installed) (fn : option V2Check) :
  ~ In (CallV2 fn) (legacy_or_reject inst).
Proof.
  unfold legacy_or_reject.
  destruct (default false _); intros [Hin | []]; discriminate.
Qed.

Lemma not_handed_undefined_v2 : ~ hands_to_verifier (CallV2 None).
Proof. intros [[v Hv] | [v Hv]]; discriminate. Qed.

Lemma not_handed_undefined_v1 : ~ hands_to_verifier (CallV1 None).
Proof. intros [[v Hv] | [v Hv]]; discriminate. Qed.

Lemma not_handed_next (err : option Js.Error) : ~ hands_to_verifier (Next err).
Proof. intros [[v Hv] | [v Hv]]; discriminate. Qed.

(** C2: what the selector's calls reach, for a configuration that
    initialisation accepted and a request that is not excluded.  A modern
    verifier is run exactly when the four conditions hold (audience
    configured, Authorization header present, token decoded without error,
    [alg] equal to [RS256]) and, in addition, a key-set URL is configured.
    When the four conditions hold without a key-set URL, the run is the one
    call of [v2JwtCheck], which holds [undefined]: a TypeError, with no
    verifier run and the legacy scheme not tried.  In the other cases with
    the legacy scheme enabled, a legacy verifier is run exactly when a
    secret is configured; without one the run ends with the call of
    [v1JwtCheck], which holds [undefined]. *)
Theorem verifier_run_needs_more_than_dispatch (cfg : Config) (inst : Installed)
    (req : Request) :
  module_exports (Some cfg) = Js.Normal (Some inst) ->
  (Routes.isExcluded (excluded inst) (method req) (path req)).1 = false ->
  let trace := (jwtAuthentication_unless jwt_decode inst req).1 in
  ((exists v, In (CallV2 (Some v)) trace)
   <-> modern_applicable jwt_decode inst req /\ Js.truthy (jwksUrl cfg) = true)
  /\ (modern_applicable jwt_decode inst req ->
      Js.truthy (jwksUrl cfg) = false ->
      trace = [CallV2 None]
      /\ Forall (fun a => ~ hands_to_verifier a) trace
      /\ raises (CallV2 None) = Some (Js.not_a_function "v2JwtCheck"))
  /\ (~ modern_applicable jwt_decode inst req ->
      enableV1 cfg <> Some false ->
      ((exists v, In (CallV1 (Some v)) trace) <-> Js.truthy (secret cfg) = true)
      /\ (Js.truthy (secret cfg) = false ->
          last trace = Some (CallV1 None)
          /\ Forall (fun a => ~ hands_to_verifier a) trace
          /\ raises (CallV1 None) = Some (Js.not_a_function "v1JwtCheck"))).
Proof.
  intros Hinit Hx trace. subst trace.
  rewrite (SelectorFacts.authentication_not_excluded jwt_decode inst req Hx).
  destruct (SetupFacts.module_exports_inv cfg inst Hinit) as (_ & Hcfg & Hv1 & Hv2).
  assert (audience (config inst) = audience cfg) as Haud by now rewrite Hcfg.
  assert (enableV1 (config inst) = Some (default true (enableV1 cfg))) as Hen
    by now rewrite Hcfg.
  destruct (SelectorFacts.jwtAuthentication_shape jwt_decode inst req)
    as [[Hm ->] | [Hn Hshape]].
  - (* the four conditions hold *)
    assert (Js.truthy (audience cfg) = true) as Ha.
    { rewrite <- Haud. exact (proj1 Hm). }
    rewrite Ha in Hv2. cbn [andb] in Hv2.
    split; [| split].
    + split.
      * intros [v [Hin | []]]. injection Hin as Hin. split; [exact Hm |].
        rewrite Hv2 in Hin. destruct (Js.truthy (jwksUrl cfg)); [reflexivity | discriminate].
      * intros [_ Hj]. rewrite Hj in Hv2. rewrite Hv2. eexists. now left.
    + intros _ Hj. rewrite Hj in Hv2. rewrite Hv2.
      split; [reflexivity | split; [| reflexivity]].
      constructor; [exact not_handed_undefined_v2 | constructor].
    + intros Hn. contradiction.
  - (* they do not *)
    split; [| split].
    + split; [| intros [Hm _]; contradiction].
      intros [v Hin]. exfalso.
      destruct Hshape as [Heq | (err & _ & Heq)]; rewrite Heq in Hin.
      * exact (legacy_or_reject_no_modern_call inst _ Hin).
      * destruct Hin as [Hin | Hin]; [discriminate |].
        exact (legacy_or_reject_no_modern_call inst _ Hin).
    + intros Hm. contradiction.
    + intros _ He.
      assert (default true (enableV1 cfg) = true) as Hd.
      { destruct (enableV1 cfg) as [[] |]; [reflexivity | congruence | reflexivity]. }
      assert (legacy_or_reject inst = [CallV1 (v1JwtCheck inst)]) as Hl.
      { apply SelectorFacts.legacy_or_reject_enabled. now rewrite Hen, Hd. }
      rewrite Hd, andb_true_r in Hv1.
      split.
      * split.
        -- intros [v Hin].
           assert (v1JwtCheck inst = Some v) as Hsome.
           { destruct Hshape as [Heq | (err & _ & Heq)]; rewrite Heq, Hl in Hin.
             - destruct Hin as [Hin | []]. congruence.
             - destruct Hin as [Hin | [Hin | []]]; [discriminate | congruence]. }
           rewrite Hv1 in Hsome.
           destruct (Js.truthy (secret cfg)); [reflexivity | discriminate].
        -- intros Hs. rewrite Hs in Hv1.
           destruct Hshape as [Heq | (err & _ & Heq)]; rewrite Heq, Hl, Hv1;
             eexists; [left | right; left]; reflexivity.
      * intros Hs. rewrite Hs in Hv1.
        destruct Hshape as [Heq | (err & _ & Heq)]; rewrite Heq, Hl, Hv1.
        -- split; [reflexivity | split; [| reflexivity]].
           constructor; [exact not_handed_undefined_v1 | constructor].
        -- split; [reflexivity | split; [| reflexivity]].
           constructor; [apply not_handed_next |].
           constructor; [exact not_handed_undefined_v1 | constructor].
Qed.

End Dispatch.

Lemma verifier_run_needs_more_than_dispatch_witness :
  let inst := Demo.installed Demo.config_no_jwks in
  let req := Demo.request (Some "Bearer eyJhbGciOiJSUzI1NiIsImtpZCI6ImtleS0xIn0.e30.c2ln") in
  module_exports (Some Demo.config_no_jwks) = Js.Normal (Some inst)
  /\ (Routes.isExcluded (excluded inst) (method req) (path req)).1 = false
  /\ modern_applicable Demo.jwt_decode inst req
  /\ Js.truthy (jwksUrl Demo.config_no_jwks) = false
  /\ (jwtAuthentication_unless Demo.jwt_decode inst req).1 = [CallV2 None]
  /\ Forall (fun a => ~ hands_to_verifier a)
       (jwtAuthentication_unless Demo.jwt_decode inst req).1
  /\ raises (CallV2 None) = Some (Js.not_a_function "v2JwtCheck").
Proof.
  intros inst req.
  assert (module_exports (Some Demo.config_no_jwks) = Js.Normal (Some inst))
    as Hinit by (vm_compute; reflexivity).
  assert ((Routes.isExcluded (excluded inst) (method req) (path req)).1 = false)
    as Hx by (vm_compute; reflexivity).
  assert (modern_applicable Demo.jwt_decode inst req) as Hm
    by (split; [reflexivity | split; reflexivity]).
  refine (conj Hinit (conj Hx (conj Hm (conj eq_refl _)))).
  exact (proj1 (proj2 (verifier_run_needs_more_than_dispatch Demo.jwt_decode
                         Demo.config_no_jwks inst req Hinit Hx)) Hm eq_refl).
Defined.

End DispatchFacts.
